(** * AI Study Tutor: the functional core of [app.py]

    A shallow embedding of the prompt builder, the completion client, the
    balanced-brace JSON extractor, the quiz parser, the quiz normalizer and
    the quiz scorer, together with the properties the specification states
    about them.

    Conventions.
    - A Python [str] is a list of Unicode code points ([pystr]).
    - The values that [json.loads] can produce form the universe [pyval].
    - A Python exception is a value of [exn]; a computation that may raise
      has type [result A]. *)

From Stdlib Require Import String Ascii.
From Stdlib Require Import List ZArith NArith Bool Lia.
From Stdlib Require Import Numbers.DecimalString.
From Stdlib Require Import Floats.SpecFloat.
Import ListNotations.

Set Implicit Arguments.
Set Warnings "-register-all".

(* ================================================================== *)
(** * Python strings *)
(* ================================================================== *)

Module PyStr.

(** A string is the sequence of its code points. *)
Definition pystr := list N.

(** An ASCII literal of the source, code point by code point. *)
Definition lit (s : string) : pystr :=
  map N_of_ascii (list_ascii_of_string s).

Definition dquote : N := 34.      (* the double quote *)
Definition backslash : N := 92.
Definition lbrace : N := 123.
Definition rbrace : N := 125.
Definition newline : N := 10.

Definition nl : pystr := [newline].

(** [quoted s] is the literal [s] between two double quotes. *)
Definition quoted (s : string) : pystr := dquote :: lit s ++ [dquote].

Fixpoint pystr_eqb (a b : pystr) : bool :=
  match a, b with
  | [], [] => true
  | x :: a', y :: b' => N.eqb x y && pystr_eqb a' b'
  | _, _ => false
  end.

(** [len(s)] as a Python integer. *)
Definition len {A : Type} (l : list A) : Z := Z.of_nat (length l).

(** [str.isspace] on one code point: the characters [str.strip()] removes
    (CPython's [Py_UNICODE_ISSPACE]). *)
Definition isspace (c : N) : bool :=
  ((9 <=? c) && (c <=? 13)
   || (28 <=? c) && (c <=? 32)
   || (c =? 0x85) || (c =? 0xA0) || (c =? 0x1680)
   || (0x2000 <=? c) && (c <=? 0x200A)
   || (c =? 0x2028) || (c =? 0x2029) || (c =? 0x202F)
   || (c =? 0x205F) || (c =? 0x3000))%N.

Fixpoint lstrip (s : pystr) : pystr :=
  match s with
  | [] => []
  | c :: s' => if isspace c then lstrip s' else s
  end.

Definition rstrip (s : pystr) : pystr := rev (lstrip (rev s)).

(** [s.strip()] *)
Definition strip (s : pystr) : pystr := rstrip (lstrip s).

(** [str(n)] for an integer: its decimal numeral. *)
Definition str_of_int (n : Z) : pystr :=
  lit (NilEmpty.string_of_int (Z.to_int n)).

(** [sep.join(parts)] *)
Fixpoint join (sep : pystr) (parts : list pystr) : pystr :=
  match parts with
  | [] => []
  | [p] => p
  | p :: rest => p ++ sep ++ join sep rest
  end.

(** [text[a:b]] for indices [0 <= a <= b]. *)
Definition slice (text : pystr) (a b : nat) : pystr :=
  firstn (b - a) (skipn a text).

(** [needle in hay] decided: [needle] occurs as a contiguous block. *)
Fixpoint prefixb (p s : pystr) : bool :=
  match p, s with
  | [], _ => true
  | x :: p', y :: s' => N.eqb x y && prefixb p' s'
  | _ :: _, [] => false
  end.

Fixpoint infixb (needle hay : pystr) : bool :=
  prefixb needle hay ||
  match hay with
  | [] => false
  | _ :: hay' => infixb needle hay'
  end.

(** [needle] occurs in [hay]. *)
Definition contains (hay needle : pystr) : Prop :=
  exists pre post, hay = pre ++ needle ++ post.

End PyStr.
Export PyStr.

(* ================================================================== *)
(** * Python values and exceptions *)
(* ================================================================== *)

(** The exceptions the modelled code can raise.  All of them derive from
    [Exception]. *)
Inductive exn : Type :=
| AttributeError
| TypeError
| KeyError
| IndexError
| ValueError.          (* json.JSONDecodeError is a ValueError *)

Inductive result (A : Type) : Type :=
| Ok (a : A)
| Raise (e : exn).

Arguments Ok {A} a.
Arguments Raise {A} e.

Definition bind {A B : Type} (m : result A) (k : A -> result B) : result B :=
  match m with
  | Ok a => k a
  | Raise e => Raise e
  end.

Notation "x <- m ;; k" := (bind m (fun x => k))
  (at level 61, m at next level, right associativity).

(** The values produced by [json.loads].  A float is denoted by the numeric
    literal it was read from ([NaN], [Infinity] and [-Infinity] included);
    a dict keeps its items in insertion order and has string keys. *)
Inductive pyval : Type :=
| PNone
| PBool (b : bool)
| PInt (n : Z)
| PFloat (literal : pystr)
| PStr (s : pystr)
| PList (items : list pyval)
| PDict (items : list (pystr * pyval)).

Definition dict := list (pystr * pyval).

(** [d.get(key)] on the items of a dict: [None] when the key is absent. *)
Fixpoint dict_lookup (d : dict) (key : pystr) : option pyval :=
  match d with
  | [] => None
  | (k, v) :: d' => if pystr_eqb k key then Some v else dict_lookup d' key
  end.

(** [d[key] = v]: replaces the value of an existing key in place, appends
    a new key at the end. *)
Fixpoint dict_set (d : dict) (key : pystr) (v : pyval) : dict :=
  match d with
  | [] => [(key, v)]
  | (k, w) :: d' =>
      if pystr_eqb k key then (k, v) :: d' else (k, w) :: dict_set d' key v
  end.

(** [isinstance(v, str)], [isinstance(v, list)], [isinstance(v, int)].
    [bool] is a subclass of [int], so [True] and [False] are instances of
    [int]. *)
Definition isinstance_str (v : pyval) : bool :=
  match v with PStr _ => true | _ => false end.

Definition isinstance_list (v : pyval) : bool :=
  match v with PList _ => true | _ => false end.

Definition isinstance_int (v : pyval) : bool :=
  match v with PInt _ | PBool _ => true | _ => false end.

(** The integer an [int] instance stands for in arithmetic, comparison and
    indexing: [True] is 1 and [False] is 0. *)
Definition int_value (v : pyval) : option Z :=
  match v with
  | PInt n => Some n
  | PBool true => Some 1%Z
  | PBool false => Some 0%Z
  | _ => None
  end.

(** What the embedding leaves to the Python runtime: the quoting rules of
    [repr] on a string, the shortest-digits [repr] of a float, and the
    comparison of a float with an integer.  Every theorem below holds for
    all runtimes. *)
Class Runtime : Type := {
  repr_str : pystr -> pystr;
  repr_float : pystr -> pystr;
  float_eq_int : pystr -> Z -> bool
}.

(** Binary64 arithmetic as far as [correct >= total * 0.6] needs it. *)
Module Float64.

Definition prec : Z := 53.
Definition emax : Z := 1024.

(** The float nearest to an integer ([float(n)]). *)
Definition of_int (n : Z) : spec_float := binary_normalize prec emax n 0 false.

(** The literal [0.6]: 5404319552844595 * 2^-53. *)
Definition lit_0_6 : spec_float := S754_finite false 5404319552844595 (-53).

Definition mul (x y : spec_float) : spec_float := SFmul prec emax x y.

(** [n >= x] for an integer [n] and a float [x]; Python compares the two
    exactly. *)
Definition int_ge (n : Z) (x : spec_float) : bool :=
  match x with
  | S754_nan => false
  | S754_infinity s => s
  | S754_zero _ => (0 <=? n)%Z
  | S754_finite s m e =>
      let v := if s then Z.neg m else Z.pos m in
      if (0 <=? e)%Z then (v * 2 ^ e <=? n)%Z
      else (v <=? n * 2 ^ (- e))%Z
  end.

End Float64.

Definition msg_no_quiz : pystr := lit "No quiz generated yet.".
Definition msg_no_answer : pystr := lit "No answer".
Definition msg_correct : pystr := 0x2705%N :: lit " Correct".
Definition msg_incorrect : pystr := 0x274C%N :: lit " Incorrect".
Definition msg_mastery : pystr :=
  lit "Great job. You" ++ [0x2019%N] ++ lit "ve mastered this set.".
Definition msg_review : pystr :=
  lit "Good work. Review the missed questions and try again.".
Definition msg_revisit : pystr :=
  lit "Keep practicing. Revisit the explanation and roadmap.".

Section Builtins.

Context {RT : Runtime}.

(** [repr(v)] *)
Fixpoint py_repr (v : pyval) : pystr :=
  match v with
  | PNone => lit "None"
  | PBool true => lit "True"
  | PBool false => lit "False"
  | PInt n => str_of_int n
  | PFloat f => repr_float f
  | PStr s => repr_str s
  | PList l => lit "[" ++ join (lit ", ") (map py_repr l) ++ lit "]"
  | PDict d =>
      lit "{"
      ++ join (lit ", ")
           (map (fun kv => match kv with
                           | (k, x) => repr_str k ++ lit ": " ++ py_repr x
                           end) d)
      ++ lit "}"
  end.

(** [str(v)], also what an f-string field [{v}] renders. *)
Definition py_str (v : pyval) : pystr :=
  match v with
  | PStr s => s
  | _ => py_repr v
  end.

(** [l[i]] on a sequence: a negative index counts from the end. *)
Definition seq_index {A : Type} (l : list A) (i : Z) : result A :=
  let j := if (i <? 0)%Z then (i + len l)%Z else i in
  if (0 <=? j)%Z && (j <? len l)%Z then
    match nth_error l (Z.to_nat j) with
    | Some x => Ok x
    | None => Raise IndexError
    end
  else Raise IndexError.

(** [c[key]] *)
Definition py_getitem (c key : pyval) : result pyval :=
  match c with
  | PList l =>
      match int_value key with
      | Some i => seq_index l i
      | None => Raise TypeError
      end
  | PStr s =>
      match int_value key with
      | Some i => ch <- seq_index s i ;; Ok (PStr [ch])
      | None => Raise TypeError
      end
  | PDict d =>
      match key with
      | PStr k =>
          match dict_lookup d k with
          | Some v => Ok v
          | None => Raise KeyError
          end
      | PList _ | PDict _ => Raise TypeError      (* unhashable key *)
      | _ => Raise KeyError
      end
  | _ => Raise TypeError
  end.

(** [len(v)] *)
Definition py_len (v : pyval) : result Z :=
  match v with
  | PList l => Ok (len l)
  | PStr s => Ok (len s)
  | PDict d => Ok (len d)
  | _ => Raise TypeError
  end.

(** [v.get(key, default)]: only a dict has the method. *)
Definition py_get (v : pyval) (key : pystr) (default : pyval) : result pyval :=
  match v with
  | PDict d =>
      Ok (match dict_lookup d key with
          | Some x => x
          | None => default
          end)
  | _ => Raise AttributeError
  end.

(** The elements [for q in v] visits. *)
Definition py_iter (v : pyval) : result (list pyval) :=
  match v with
  | PList l => Ok l
  | PStr s => Ok (map (fun ch => PStr [ch]) s)
  | PDict d => Ok (map (fun kv => PStr (fst kv)) d)
  | _ => Raise TypeError
  end.

(** [key in v] for a string [key]: key membership in a dict, element
    membership in a list, substring test in a string. *)
Definition py_in (key : pystr) (v : pyval) : result bool :=
  match v with
  | PDict d =>
      Ok (match dict_lookup d key with Some _ => true | None => false end)
  | PList l =>
      Ok (existsb (fun x => match x with
                            | PStr s => pystr_eqb key s
                            | _ => false
                            end) l)
  | PStr s => Ok (infixb key s)
  | _ => Raise TypeError
  end.

(* ================================================================== *)
(** * Quiz normalizer *)
(* ================================================================== *)

(** The last three conjuncts of the [if] in [normalize_quiz], for
    [options] already known to be a list. *)
Definition index_ok (opts : list pyval) (answer_index : pyval) : bool :=
  ((3 <=? len opts) && (len opts <=? 5))%Z
  && isinstance_int answer_index
  && match int_value answer_index with
     | Some a => ((0 <=? a) && (a <? len opts))%Z
     | None => false
     end.

(** The dict appended to [cleaned] for an accepted entry. *)
Definition cleaned_entry (question : pystr) (opts : list pyval)
    (answer_index : pyval) : pyval :=
  PDict
    [ (lit "question", PStr (strip question));
      (lit "options", PList (map (fun o => PStr (strip (py_str o))) opts));
      (lit "answer_index", answer_index) ].

(** The body of the [for] loop of [normalize_quiz], on the list
    [cleaned]. *)
Definition normalize_step (cleaned : list pyval) (q : pyval)
  : result (list pyval) :=
  question <- py_get q (lit "question") PNone ;;
  options <- py_get q (lit "options") (PList []) ;;
  answer_index <- py_get q (lit "answer_index") PNone ;;
  match question, options with
  | PStr s, PList opts =>
      if index_ok opts answer_index
      then Ok (cleaned ++ [cleaned_entry s opts answer_index])
      else Ok cleaned
  | _, _ => Ok cleaned
  end.

Fixpoint normalize_loop (cleaned : list pyval) (qs : list pyval)
  : result (list pyval) :=
  match qs with
  | [] => Ok cleaned
  | q :: qs' =>
      cleaned' <- normalize_step cleaned q ;;
      normalize_loop cleaned' qs'
  end.

Definition normalize_quiz (quiz : pyval) : result (list pyval) :=
  questions <- py_get quiz (lit "questions") (PList []) ;;
  qs <- py_iter questions ;;
  cleaned <- normalize_loop [] qs ;;
  Ok (firstn 5 cleaned).

(* ================================================================== *)
(** * Quiz scorer *)
(* ================================================================== *)

(** [user_idx == ans_idx] for a selection [user_idx : int | None]. *)
Definition choice_eq (user_idx : option Z) (ans_idx : pyval) : bool :=
  match user_idx, ans_idx with
  | None, PNone => true
  | None, _ => false
  | Some u, PInt n => (u =? n)%Z
  | Some u, PBool b => (u =? (if b then 1 else 0))%Z
  | Some u, PFloat f => float_eq_int f u
  | Some _, _ => false
  end.

(** [user_choices[i] if i < len(user_choices) else None] *)
Definition choice_at (user_choices : list (option Z)) (i : nat)
  : result (option Z) :=
  if (Z.of_nat i <? len user_choices)%Z
  then seq_index user_choices (Z.of_nat i)
  else Ok None.

(** The conditional expression bound to [chosen]. *)
Definition chosen_label (q : pyval) (user_idx : option Z) : result pystr :=
  match user_idx with
  | Some u =>
      if (0 <=? u)%Z then
        opts <- py_getitem q (PStr (lit "options")) ;;
        n <- py_len opts ;;
        if (u <? n)%Z then
          opts' <- py_getitem q (PStr (lit "options")) ;;
          o <- py_getitem opts' (PInt u) ;;
          Ok (py_str o)
        else Ok msg_no_answer
      else Ok msg_no_answer
  | None => Ok msg_no_answer
  end.

(** One iteration of the loop of [evaluate_answers]: whether the answer is
    correct, and the line appended to [details]. *)
Definition score_question (user_choices : list (option Z)) (i : nat)
    (q : pyval) : result (bool * pystr) :=
  user_idx <- choice_at user_choices i ;;
  ans_idx <- py_getitem q (PStr (lit "answer_index")) ;;
  let is_correct := choice_eq user_idx ans_idx in
  chosen <- chosen_label q user_idx ;;
  opts <- py_getitem q (PStr (lit "options")) ;;
  right <- py_getitem opts ans_idx ;;
  Ok (is_correct,
      lit "Q" ++ str_of_int (Z.of_nat i + 1) ++ lit ": "
      ++ (if is_correct then msg_correct else msg_incorrect)
      ++ lit " | Your answer: " ++ chosen
      ++ lit " | Correct: " ++ py_str right).

Fixpoint score_loop (user_choices : list (option Z)) (i : nat)
    (qs : list pyval) (correct : Z) (details : list pystr)
  : result (Z * list pystr) :=
  match qs with
  | [] => Ok (correct, details)
  | q :: qs' =>
      r <- score_question user_choices i q ;;
      score_loop user_choices (S i) qs'
        (if fst r then (correct + 1)%Z else correct)
        (details ++ [snd r])
  end.

(** [correct >= (total * 0.6)], the product taken in binary64. *)
Definition at_least_60_percent (correct total : Z) : bool :=
  Float64.int_ge correct
    (Float64.mul (Float64.of_int total) Float64.lit_0_6).

(** The feedback message chosen from [correct] and [total]. *)
Definition feedback_tier (correct total : Z) : pystr :=
  if (correct =? total)%Z then msg_mastery
  else if at_least_60_percent correct total then msg_review
  else msg_revisit.

Definition evaluate_answers (user_choices : list (option Z))
    (quiz_data : list pyval) : result (pystr * pystr) :=
  r <- score_loop user_choices 0 quiz_data 0%Z [] ;;
  let correct := fst r in
  let details := snd r in
  let total := len quiz_data in
  if (total =? 0)%Z then Ok (msg_no_quiz, [])
  else
    let score_text :=
      lit "Score: " ++ str_of_int correct ++ lit " / " ++ str_of_int total in
    Ok (score_text,
        feedback_tier correct total ++ nl ++ nl ++ join nl details).

End Builtins.

(* ================================================================== *)
(** * The JSON decoder *)
(* ================================================================== *)

(** [json.loads] of the Python standard library, following the grammar its
    decoder accepts: objects, arrays, strings with escapes, numbers, the
    literals [null], [true], [false], and the constants [NaN], [Infinity],
    [-Infinity].  Every failure is a [ValueError] (JSONDecodeError).  The
    interpreter's resource limits (recursion depth, digits of an integer
    literal) are not part of the model. *)
Module Json.

Definition is_ws (c : N) : bool :=
  ((c =? 32) || (c =? 9) || (c =? 10) || (c =? 13))%N.

Fixpoint skip_ws (s : pystr) : pystr :=
  match s with
  | c :: s' => if is_ws c then skip_ws s' else s
  | [] => []
  end.

Definition is_digit (c : N) : bool := ((48 <=? c) && (c <=? 57))%N.

Definition hex_value (c : N) : option N :=
  if ((48 <=? c) && (c <=? 57))%N then Some (c - 48)%N
  else if ((97 <=? c) && (c <=? 102))%N then Some (c - 87)%N
  else if ((65 <=? c) && (c <=? 70))%N then Some (c - 55)%N
  else None.

(** The four hex digits after a backslash-u.  *)
Definition decode_uXXXX (s : pystr) : option (N * pystr) :=
  match s with
  | a :: b :: c :: d :: rest =>
      match hex_value a, hex_value b, hex_value c, hex_value d with
      | Some x, Some y, Some z, Some w =>
          Some (((x * 16 + y) * 16 + z) * 16 + w, rest)%N
      | _, _, _, _ => None
      end
  | _ => None
  end.

(** The character a one-letter escape stands for. *)
Definition simple_escape (c : N) : option N :=
  if (c =? 34)%N then Some 34%N            (* quote *)
  else if (c =? 92)%N then Some 92%N       (* backslash *)
  else if (c =? 47)%N then Some 47%N       (* slash *)
  else if (c =? 98)%N then Some 8%N        (* b *)
  else if (c =? 102)%N then Some 12%N      (* f *)
  else if (c =? 110)%N then Some 10%N      (* n *)
  else if (c =? 114)%N then Some 13%N      (* r *)
  else if (c =? 116)%N then Some 9%N       (* t *)
  else None.

(** The body of a string literal, after its opening quote: the decoded
    text and the input left after the closing quote. *)
Fixpoint scanstring (fuel : nat) (s : pystr) (acc : pystr)
  : result (pystr * pystr) :=
  match fuel with
  | O => Raise ValueError
  | S fuel' =>
      match s with
      | [] => Raise ValueError                       (* unterminated *)
      | c :: rest =>
          if (c =? dquote)%N then Ok (acc, rest)
          else if (c =? backslash)%N then
            match rest with
            | [] => Raise ValueError
            | e :: rest' =>
                if (e =? 117)%N then                 (* u *)
                  match decode_uXXXX rest' with
                  | None => Raise ValueError
                  | Some (uni, rest'') =>
                      if ((0xD800 <=? uni) && (uni <=? 0xDBFF))%N then
                        match rest'' with
                        | 92%N :: 117%N :: rest3 =>
                            match decode_uXXXX rest3 with
                            | None => Raise ValueError
                            | Some (uni2, rest4) =>
                                if ((0xDC00 <=? uni2) && (uni2 <=? 0xDFFF))%N
                                then
                                  scanstring fuel' rest4
                                    (acc ++ [0x10000
                                             + ((uni - 0xD800) * 1024
                                                + (uni2 - 0xDC00))])%N
                                else scanstring fuel' rest'' (acc ++ [uni])
                            end
                        | _ => scanstring fuel' rest'' (acc ++ [uni])
                        end
                      else scanstring fuel' rest'' (acc ++ [uni])
                  end
                else
                  match simple_escape e with
                  | Some ch => scanstring fuel' rest' (acc ++ [ch])
                  | None => Raise ValueError
                  end
            end
          else if (c <? 32)%N then Raise ValueError  (* control character *)
          else scanstring fuel' rest (acc ++ [c])
      end
  end.

(** The longest run of digits at the head of [s]. *)
Fixpoint span_digits (s : pystr) : pystr * pystr :=
  match s with
  | c :: s' =>
      if is_digit c then
        let r := span_digits s' in (c :: fst r, snd r)
      else ([], s)
  | [] => ([], [])
  end.

Definition digits_value (ds : pystr) : Z :=
  fold_left (fun acc c => (acc * 10 + Z.of_N (c - 48))%Z) ds 0%Z.

(** The integer part of a number: [0], or a nonzero digit followed by
    digits. *)
Definition span_int (s : pystr) : option (pystr * pystr) :=
  match s with
  | c :: s' =>
      if (c =? 48)%N then Some ([c], s')
      else if is_digit c then
        let r := span_digits s' in Some (c :: fst r, snd r)
      else None
  | [] => None
  end.

(** An optional fraction: a point followed by at least one digit. *)
Definition span_frac (s : pystr) : pystr * pystr :=
  match s with
  | 46%N :: s' =>
      match span_digits s' with
      | ([], _) => ([], s)
      | (ds, rest) => (46%N :: ds, rest)
      end
  | _ => ([], s)
  end.

(** An optional exponent: [e] or [E], an optional sign, at least one
    digit. *)
Definition span_exp (s : pystr) : pystr * pystr :=
  match s with
  | e :: s' =>
      if ((e =? 101) || (e =? 69))%N then
        let '(sign, s'') :=
          match s' with
          | c :: t => if ((c =? 43) || (c =? 45))%N then ([c], t) else ([], s')
          | [] => ([], s')
          end in
        match span_digits s'' with
        | ([], _) => ([], s)
        | (ds, rest) => (e :: sign ++ ds, rest)
        end
      else ([], s)
  | [] => ([], s)
  end.

(** A number at the head of [s]: an [int] when it has neither fraction nor
    exponent, a [float] otherwise. *)
Definition match_number (s : pystr) : option (pyval * pystr) :=
  let '(neg, s1) :=
    match s with
    | 45%N :: t => (true, t)
    | _ => (false, s)
    end in
  match span_int s1 with
  | None => None
  | Some (ip, s2) =>
      let '(frac, s3) := span_frac s2 in
      let '(ex, s4) := span_exp s3 in
      match frac, ex with
      | [], [] =>
          Some (PInt (if neg then - digits_value ip else digits_value ip)%Z,
                s4)
      | _, _ =>
          Some (PFloat ((if neg then [45%N] else []) ++ ip ++ frac ++ ex), s4)
      end
  end.

(** [s] starts with the ASCII word [w]; the input after it. *)
Definition after_word (w : string) (s : pystr) : option pystr :=
  if prefixb (lit w) s then Some (skipn (length (lit w)) s) else None.

Definition comma : N := 44.
Definition colon : N := 58.
Definition lbracket : N := 91.
Definition rbracket : N := 93.

(** One value at the head of [s], and the input left after it.  [fuel]
    bounds the number of nested calls; the length of the input is
    enough. *)
Fixpoint scan_once (fuel : nat) (s : pystr) {struct fuel}
  : result (pyval * pystr) :=
  match fuel with
  | O => Raise ValueError
  | S fuel' =>
      match s with
      | [] => Raise ValueError
      | c :: rest =>
          if (c =? dquote)%N then
            r <- scanstring (length rest) rest [] ;;
            Ok (PStr (fst r), snd r)
          else if (c =? lbrace)%N then
            match skip_ws rest with
            | 125%N :: rest' => Ok (PDict [], rest')
            | 34%N :: rest' => object_items fuel' rest' []
            | _ => Raise ValueError
            end
          else if (c =? lbracket)%N then
            match skip_ws rest with
            | 93%N :: rest' => Ok (PList [], rest')
            | rest' => array_items fuel' rest' []
            end
          else
            match after_word "null" s, after_word "true" s,
                  after_word "false" s with
            | Some r, _, _ => Ok (PNone, r)
            | _, Some r, _ => Ok (PBool true, r)
            | _, _, Some r => Ok (PBool false, r)
            | None, None, None =>
                match match_number s with
                | Some r => Ok r
                | None =>
                    match after_word "NaN" s, after_word "Infinity" s,
                          after_word "-Infinity" s with
                    | Some r, _, _ => Ok (PFloat (lit "NaN"), r)
                    | _, Some r, _ => Ok (PFloat (lit "Infinity"), r)
                    | _, _, Some r => Ok (PFloat (lit "-Infinity"), r)
                    | None, None, None => Raise ValueError
                    end
                end
            end
      end
  end

(** The elements of an array from the head of [s], which is the start of
    an element; [acc] holds the elements read so far. *)
with array_items (fuel : nat) (s : pystr) (acc : list pyval) {struct fuel}
  : result (pyval * pystr) :=
  match fuel with
  | O => Raise ValueError
  | S fuel' =>
      r <- scan_once fuel' s ;;
      let values := acc ++ [fst r] in
      match skip_ws (snd r) with
      | c :: rest =>
          if (c =? rbracket)%N then Ok (PList values, rest)
          else if (c =? comma)%N then array_items fuel' (skip_ws rest) values
          else Raise ValueError
      | [] => Raise ValueError
      end
  end

(** The members of an object from the head of [s], which is just after
    the opening quote of a key; [acc] holds the members read so far. *)
with object_items (fuel : nat) (s : pystr) (acc : dict) {struct fuel}
  : result (pyval * pystr) :=
  match fuel with
  | O => Raise ValueError
  | S fuel' =>
      k <- scanstring (length s) s [] ;;
      match skip_ws (snd k) with
      | 58%N :: s1 =>
          r <- scan_once fuel' (skip_ws s1) ;;
          let pairs := dict_set acc (fst k) (fst r) in
          match skip_ws (snd r) with
          | c :: rest =>
              if (c =? rbrace)%N then Ok (PDict pairs, rest)
              else if (c =? comma)%N then
                match skip_ws rest with
                | 34%N :: rest' => object_items fuel' rest' pairs
                | _ => Raise ValueError
                end
              else Raise ValueError
          | [] => Raise ValueError
          end
      | _ => Raise ValueError
      end
  end.

(** [json.loads(text)]: one value, surrounded by optional whitespace and
    nothing else. *)
Definition loads (text : pystr) : result pyval :=
  r <- scan_once (S (length text)) (skip_ws text) ;;
  match skip_ws (snd r) with
  | [] => Ok (fst r)
  | _ :: _ => Raise ValueError                       (* extra data *)
  end.

End Json.

(* ================================================================== *)
(** * Prompt builder *)
(* ================================================================== *)

Definition build_system_context (subject topic language level : pystr)
  : pystr :=
  lit "Subject: " ++ subject ++ nl
  ++ lit "Topic: " ++ topic ++ nl
  ++ lit "Language: " ++ language ++ nl
  ++ lit "Student Level: " ++ level ++ nl.

Definition prompt_explanation (subject topic language level : pystr)
  : pystr :=
  let ctx := build_system_context subject topic language level in
  ctx ++ nl
  ++ lit "Task: Write a clear, friendly, step-by-step explanation of the topic. "
  ++ lit "Use short paragraphs, numbered steps where helpful, and examples. "
  ++ lit "Keep it concise but thorough. Reply in the specified language only.".

Definition prompt_resources (subject topic language level : pystr)
  : pystr :=
  let ctx := build_system_context subject topic language level in
  ctx ++ nl
  ++ lit "Task: Recommend at least 3 quality learning resources (mix of articles, videos, documentation). "
  ++ lit "Return as a markdown bulleted list. Each item must include a title, the type (Article/Video/Docs), "
  ++ lit "a one-line why it's useful, and a URL. Reply in the specified language only.".

Definition prompt_roadmap (subject topic language level : pystr) : pystr :=
  let ctx := build_system_context subject topic language level in
  ctx ++ nl
  ++ lit "Task: Produce a structured learning roadmap for this topic and level. "
  ++ lit "Organize into stages with bullet points, estimated effort, and key outcomes. "
  ++ lit "Add a short list of common mistakes to avoid. Reply in the specified language only.".

Definition prompt_quiz (subject topic language level : pystr) : pystr :=
  let ctx := build_system_context subject topic language level in
  ctx ++ nl
  ++ lit "Task: Create a short multiple-choice quiz with 3 to 5 questions. "
  ++ lit "Return STRICT JSON only with this schema:" ++ nl
  ++ lit "{" ++ nl
  ++ lit "  " ++ quoted "questions" ++ lit ": [" ++ nl
  ++ lit "    {" ++ nl
  ++ lit "      " ++ quoted "question" ++ lit ": " ++ quoted "string"
       ++ lit "," ++ nl
  ++ lit "      " ++ quoted "options" ++ lit ": [" ++ quoted "A" ++ lit ", "
       ++ quoted "B" ++ lit ", " ++ quoted "C" ++ lit ", " ++ quoted "D"
       ++ lit "]," ++ nl
  ++ lit "      " ++ quoted "answer_index" ++ lit ": 0" ++ nl
  ++ lit "    }" ++ nl
  ++ lit "  ]" ++ nl
  ++ lit "}" ++ nl
  ++ lit "Requirements:" ++ nl
  ++ lit "- options length 3-5" ++ nl
  ++ lit "- answer_index is an integer index into the options array" ++ nl
  ++ lit "- No additional commentary or code fences" ++ nl
  ++ lit "- Write the question text and options in " ++ language ++ lit ".".

(** The four task kinds of the specification, and the prompt function each
    of the four generation callbacks calls. *)
Inductive TaskKind : Type := Explanation | Resources | Roadmap | Quiz.

Definition buildPrompt (kind : TaskKind)
    (subject topic language level : pystr) : pystr :=
  match kind with
  | Explanation => prompt_explanation subject topic language level
  | Resources => prompt_resources subject topic language level
  | Roadmap => prompt_roadmap subject topic language level
  | Quiz => prompt_quiz subject topic language level
  end.

(* ================================================================== *)
(** * Completion client *)
(* ================================================================== *)

(** The keyword arguments of [client.chat.completions.create]. *)
Record request : Type := {
  model : pyval;
  messages : pyval;
  temperature : pyval;
  max_tokens : pyval
}.

(** What the provider does with a request: it answers with the message
    contents of its choices, or the call raises an exception [e], an
    instance of [Exception] as transport and provider failures are, whose
    text [str(e)] is [message]. *)
Inductive reply : Type :=
| Response (choices : list pystr)
| Failure (message : pystr).

(** The result of running a [try] body: a returned value or a raised
    exception, with its text. *)
Inductive outcome (A : Type) : Type :=
| Returned (a : A)
| Raised (message : pystr).

Arguments Returned {A} a.
Arguments Raised {A} message.

(** [GROQ_API_KEY = os.environ.get("GROQ_API_KEY", "").strip()], from the
    value of the environment variable, if it is set. *)
Definition api_key_of_env (env : option pystr) : pystr :=
  strip (match env with Some v => v | None => [] end).

Definition msg_missing_key : pystr :=
  0x274C%N
  :: lit " Missing GROQ_API_KEY. Set it in your environment or Space secrets.".

Definition completion_request (prompt : pystr) : request :=
  {| model := PStr (lit "llama-3.1-8b-instant");
     messages := PList [PDict [(lit "role", PStr (lit "user"));
                               (lit "content", PStr prompt)]];
     temperature := PFloat (lit "0.7");
     max_tokens := PInt 500 |}.

Section Completion.

(** The configured credential and the external provider. *)
Variable GROQ_API_KEY : pystr.
Variable provider : request -> reply.

(** The body of the [try]: the call, then
    [response.choices[0].message.content].  The second component is the
    list of requests sent so far. *)
Definition call_provider (prompt : pystr) (sent : list request)
  : outcome pystr * list request :=
  let req := completion_request prompt in
  let sent' := sent ++ [req] in
  match provider req with
  | Failure message => (Raised message, sent')
  | Response [] => (Raised (lit "list index out of range"), sent')
  | Response (content :: _) => (Returned content, sent')
  end.

(** [try: body except Exception as e: handler(e)] *)
Definition try_except {A : Type} (body : outcome A)
    (handler : pystr -> outcome A) : outcome A :=
  match body with
  | Returned a => Returned a
  | Raised e => handler e
  end.

Definition generate_with_groq (prompt : pystr) (sent : list request)
  : outcome pystr * list request :=
  match GROQ_API_KEY with
  | [] => (Returned msg_missing_key, sent)
  | _ :: _ =>
      let r := call_provider prompt sent in
      (try_except (fst r)
         (fun e => Returned (0x274C%N :: lit " API error: " ++ e)),
       snd r)
  end.

End Completion.

(* ================================================================== *)
(** * JSON quiz extractor and parser *)
(* ================================================================== *)

(** [text.find(c)] for a single character: the least index, or -1. *)
Fixpoint str_find_from (text : pystr) (c : N) (i : Z) : Z :=
  match text with
  | [] => (-1)%Z
  | x :: rest => if (x =? c)%N then i else str_find_from rest c (i + 1)%Z
  end.

Definition str_find (text : pystr) (c : N) : Z := str_find_from text c 0%Z.

(** [text[i]] for an index within the text. *)
Definition char_at (text : pystr) (i : nat) : N := nth i text 0%N.

(** The [for] loop of [_extract_first_json_object] over the remaining
    indices, with the loop variables [depth], [in_str] and [escape]. *)
Fixpoint extract_loop (text : pystr) (start : nat) (indices : list nat)
    (depth : Z) (in_str escape : bool) : option pystr :=
  match indices with
  | [] => None
  | i :: rest =>
      let ch := char_at text i in
      if in_str then
        if escape then extract_loop text start rest depth in_str false
        else if (ch =? backslash)%N then
          extract_loop text start rest depth in_str true
        else if (ch =? dquote)%N then
          extract_loop text start rest depth false escape
        else extract_loop text start rest depth in_str escape
      else
        if (ch =? dquote)%N then
          extract_loop text start rest depth true escape
        else if (ch =? lbrace)%N then
          extract_loop text start rest (depth + 1)%Z in_str escape
        else if (ch =? rbrace)%N then
          let depth' := (depth - 1)%Z in
          if (depth' =? 0)%Z then Some (slice text start (i + 1))
          else extract_loop text start rest depth' in_str escape
        else extract_loop text start rest depth in_str escape
  end.

Definition _extract_first_json_object (text : pystr) : option pystr :=
  let start := str_find text lbrace in
  if (start =? -1)%Z then None
  else
    let start := Z.to_nat start in
    extract_loop text start (seq start (length text - start)) 0%Z false false.

Section Parser.

(** The body of each [try] of [parse_quiz_json]: [Ok (Some parsed)] when
    it returns [parsed], [Ok None] when it falls through. *)
Definition try_questions (text : pystr) : result (option pyval) :=
  parsed <- Json.loads text ;;
  has <- py_in (lit "questions") parsed ;;
  Ok (if has then Some parsed else None).

(** [try: ... except Exception: pass] *)
Definition except_pass {A : Type} (body : result (option A))
  : result (option A) :=
  match body with
  | Ok r => Ok r
  | Raise _ => Ok None
  end.

Definition empty_quiz : pyval := PDict [(lit "questions", PList [])].

Definition parse_quiz_json (text : pystr) : result pyval :=
  direct <- except_pass (try_questions text) ;;
  match direct with
  | Some parsed => Ok parsed
  | None =>
      match _extract_first_json_object text with
      | Some ((_ :: _) as block) =>
          extracted <- except_pass (try_questions block) ;;
          match extracted with
          | Some parsed => Ok parsed
          | None => Ok empty_quiz
          end
      | _ => Ok empty_quiz
      end
  end.

End Parser.

(* ================================================================== *)
(** * The specification's reading of the extractor *)
(* ================================================================== *)

(** The scanner of the specification: a string-literal flag, an escape
    flag and a brace-depth counter, advanced one character at a time. *)
Record scan_state : Type := {
  depth : Z;
  in_string : bool;
  escaped : bool
}.

Definition scan_init : scan_state :=
  {| depth := 0; in_string := false; escaped := false |}.

Definition scan_char (st : scan_state) (ch : N) : scan_state :=
  if in_string st then
    if escaped st then
      (* the character after an unescaped backslash has no meaning *)
      {| depth := depth st; in_string := true; escaped := false |}
    else if (ch =? backslash)%N then
      {| depth := depth st; in_string := true; escaped := true |}
    else if (ch =? dquote)%N then
      {| depth := depth st; in_string := false; escaped := escaped st |}
    else st
  else
    if (ch =? dquote)%N then
      {| depth := depth st; in_string := true; escaped := escaped st |}
    else if (ch =? lbrace)%N then
      {| depth := depth st + 1; in_string := false; escaped := escaped st |}
    else if (ch =? rbrace)%N then
      {| depth := depth st - 1; in_string := false; escaped := escaped st |}
    else st.

(** The scanner state after reading [s] from the initial state. *)
Definition scan (s : pystr) : scan_state := fold_left scan_char s scan_init.

(** [s] runs from an opening brace to the closing brace that returns the
    depth to zero: the depth is zero after [s] and after no shorter
    non-empty prefix of [s]. *)
Definition balanced_object (s : pystr) : Prop :=
  (exists body, s = lbrace :: body ++ [rbrace])
  /\ depth (scan s) = 0%Z
  /\ forall k, (0 < k < length s)%nat -> depth (scan (firstn k s)) <> 0%Z.

(** The depth never returns to zero while reading [s]. *)
Definition never_balanced (s : pystr) : Prop :=
  forall k, (0 < k <= length s)%nat -> depth (scan (firstn k s)) <> 0%Z.

(** What the specification asks of the extractor's answer [r] on
    [text]. *)
Definition matcher_spec (text : pystr) (r : option pystr) : Prop :=
  match r with
  | Some s =>
      exists pre post,
        text = pre ++ s ++ post /\ ~ In lbrace pre /\ balanced_object s
  | None =>
      ~ In lbrace text
      \/ exists pre rest,
           text = pre ++ lbrace :: rest /\ ~ In lbrace pre
           /\ never_balanced (lbrace :: rest)
  end.


(* ================================================================== *)
(** * The specification's reading of the normalizer and the scorer *)
(* ================================================================== *)

(** A runtime to run the examples below.  Its functions are exact on
    what the examples render: no example prints a container or a float,
    or compares a float. *)
Definition example_runtime : Runtime :=
  {| repr_str := fun s => 39%N :: s ++ [39%N];
     repr_float := fun literal => literal;
     float_eq_int := fun _ _ => false |}.

(** A text with no whitespace at either end; the empty text is one. *)
Definition trimmed (s : pystr) : Prop :=
  (forall c rest, s = c :: rest -> isspace c = false)
  /\ (forall c front, s = front ++ [c] -> isspace c = false).

(** The Quiz Question record of the data model, without the demand that
    the question be non-empty: a trimmed question, three to five trimmed
    options, and an integer answer index that points into the options. *)
Definition quiz_question (r : pyval) : Prop :=
  exists (question : pystr) (options : list pystr) (answer_index : pyval)
         (a : Z),
    r = PDict [ (lit "question", PStr question);
                (lit "options", PList (map PStr options));
                (lit "answer_index", answer_index) ]
    /\ trimmed question
    /\ Forall trimmed options
    /\ (3 <= len options <= 5)%Z
    /\ isinstance_int answer_index = true
    /\ int_value answer_index = Some a
    /\ (0 <= a < len options)%Z.

(** The Quiz Question record of the data model as written there, with a
    question that is not empty once trimmed. *)
Definition quiz_question_nonempty (r : pyval) : Prop :=
  exists (d : dict) (question : pystr),
    r = PDict d
    /\ dict_lookup d (lit "question") = Some (PStr question)
    /\ strip question <> [].

(** The conditions of the specification on an entry [d] of the questions
    list: the question is text, the options are a sequence of three to
    five elements, the answer index is an integer and a valid index. *)
Definition entry_valid (d : dict) : Prop :=
  exists (question : pystr) (options : list pyval) (answer_index : pyval)
         (a : Z),
    dict_lookup d (lit "question") = Some (PStr question)
    /\ dict_lookup d (lit "options") = Some (PList options)
    /\ dict_lookup d (lit "answer_index") = Some answer_index
    /\ (3 <= len options <= 5)%Z
    /\ int_value answer_index = Some a
    /\ (0 <= a < len options)%Z.

Section EntryReading.

Context {RT : Runtime}.

(** The three fields the normalizer reads of an entry, with the defaults
    of its [get] calls. *)
Definition field_or (d : dict) (key : string) (default : pyval) : pyval :=
  match dict_lookup d (lit key) with
  | Some v => v
  | None => default
  end.

(** The entry passes the checks of the normalizer. *)
Definition entry_validb (d : dict) : bool :=
  match field_or d "question" PNone, field_or d "options" (PList []) with
  | PStr _, PList opts => index_ok opts (field_or d "answer_index" PNone)
  | _, _ => false
  end.

(** The record kept for an entry that passes them. *)
Definition entry_cleaned (d : dict) : pyval :=
  match field_or d "question" PNone, field_or d "options" (PList []) with
  | PStr s, PList opts =>
      cleaned_entry s opts (field_or d "answer_index" PNone)
  | _, _ => PNone
  end.

End EntryReading.

(** What the scorer reads of a question: its options and the value of its
    answer index. *)
Record scorable : Type := {
  sc_options : list pyval;
  sc_answer : Z
}.

(** The dict [q] is a question with these options and this answer index,
    the index pointing into the options. *)
Definition represents (q : pyval) (s : scorable) : Prop :=
  exists (d : dict) (answer_index : pyval),
    q = PDict d
    /\ dict_lookup d (lit "options") = Some (PList (sc_options s))
    /\ dict_lookup d (lit "answer_index") = Some answer_index
    /\ int_value answer_index = Some (sc_answer s)
    /\ (0 <= sc_answer s < len (sc_options s))%Z.

Section ScoreReport.

Context {RT : Runtime}.

(** The selection for position [i]; a position past the end of the list
    is unanswered. *)
Definition selection_at (selections : list (option Z)) (i : nat)
  : option Z :=
  nth i selections None.

(** The answer is correct when the selected index is the answer index. *)
Definition verdict (selection : option Z) (s : scorable) : bool :=
  match selection with
  | Some u => (u =? sc_answer s)%Z
  | None => false
  end.

(** The selection is an index into the options. *)
Definition in_range (selection : option Z) (s : scorable) : bool :=
  match selection with
  | Some u => ((0 <=? u) && (u <? len (sc_options s)))%Z
  | None => false
  end.

Definition option_label (s : scorable) (u : Z) : pystr :=
  py_str (nth (Z.to_nat u) (sc_options s) PNone).

(** The label of the selected option, or "No answer". *)
Definition chosen_text (selection : option Z) (s : scorable) : pystr :=
  match selection with
  | Some u => if in_range selection s then option_label s u else msg_no_answer
  | None => msg_no_answer
  end.

Definition correct_text (s : scorable) : pystr :=
  option_label s (sc_answer s).

(** The feedback line of position [i]. *)
Definition detail_line (i : nat) (selection : option Z) (s : scorable)
  : pystr :=
  lit "Q" ++ str_of_int (Z.of_nat i + 1) ++ lit ": "
  ++ (if verdict selection s then msg_correct else msg_incorrect)
  ++ lit " | Your answer: " ++ chosen_text selection s
  ++ lit " | Correct: " ++ correct_text s.

(** The feedback lines of the questions [qs], the first of them at
    position [i]. *)
Fixpoint detail_lines (selections : list (option Z)) (i : nat)
    (qs : list scorable) : list pystr :=
  match qs with
  | [] => []
  | s :: qs' =>
      detail_line i (selection_at selections i) s
      :: detail_lines selections (S i) qs'
  end.

(** The number of correct answers among [qs], the first of them at
    position [i]. *)
Fixpoint correct_count (selections : list (option Z)) (i : nat)
    (qs : list scorable) : Z :=
  match qs with
  | [] => 0%Z
  | s :: qs' =>
      ((if verdict (selection_at selections i) s then 1 else 0)
       + correct_count selections (S i) qs')%Z
  end.

End ScoreReport.

(** The feedback tier of the specification: mastery when all answers are
    correct, review when at least 60% are, revisit below that. *)
Definition tier_message (correct total : Z) : pystr :=
  if (correct =? total)%Z then msg_mastery
  else if (60 * total <=? 100 * correct)%Z then msg_review
  else msg_revisit.

Definition score_line (correct total : Z) : pystr :=
  lit "Score: " ++ str_of_int correct ++ lit " / " ++ str_of_int total.


(* ================================================================== *)
(** * Example inputs *)
(* ================================================================== *)

(** The entry [{"question": "2+2?", "options": ["3","4","5"],
    "answer_index": 1}]. *)
Definition sum_entry : pyval :=
  PDict [ (lit "question", PStr (lit "2+2?"));
          (lit "options",
            PList [PStr (lit "3"); PStr (lit "4"); PStr (lit "5")]);
          (lit "answer_index", PInt 1) ].

(** The same entry with [answer_index] equal to the number of options. *)
Definition sum_entry_out_of_range : pyval :=
  PDict [ (lit "question", PStr (lit "2+2?"));
          (lit "options",
            PList [PStr (lit "3"); PStr (lit "4"); PStr (lit "5")]);
          (lit "answer_index", PInt 3) ].

(** An entry whose question holds only spaces. *)
Definition blank_entry : pyval :=
  PDict [ (lit "question", PStr (lit "   "));
          (lit "options",
            PList [PStr (lit "a"); PStr (lit "b"); PStr (lit "c")]);
          (lit "answer_index", PInt 0) ].

Definition blank_entry_cleaned : pyval :=
  PDict [ (lit "question", PStr []);
          (lit "options",
            PList [PStr (lit "a"); PStr (lit "b"); PStr (lit "c")]);
          (lit "answer_index", PInt 0) ].

(** [{"questions": entries}] *)
Definition quiz_of (entries : list pyval) : pyval :=
  PDict [(lit "questions", PList entries)].

(** The text [["questions"]]: a JSON array holding one string. *)
Definition questions_array_text : pystr :=
  lit "[" ++ quoted "questions" ++ lit "]".

(** The model answer of the specification: a quiz object between two
    pieces of prose. *)
Definition sure_text : pystr :=
  lit "Sure! {" ++ quoted "questions" ++ lit ":[{"
  ++ quoted "question" ++ lit ":" ++ quoted "2+2?" ++ lit ","
  ++ quoted "options" ++ lit ":[" ++ quoted "3" ++ lit ","
  ++ quoted "4" ++ lit "," ++ quoted "5" ++ lit "],"
  ++ quoted "answer_index" ++ lit ":1}]} Hope that helps!".

(** The text [{"a": "b{c}d"}] between two pieces of prose. *)
Definition braces_in_string_object : pystr :=
  lit "{" ++ quoted "a" ++ lit ": " ++ quoted "b{c}d" ++ lit "}".

Definition braces_in_string_text : pystr :=
  lit "Here: " ++ braces_in_string_object ++ lit " done".

(** The quiz [[{options: ["A","B","C"], answer_index: 2}]] of the
    specification, and what the scorer reads of it. *)
Definition abc_quiz : list pyval :=
  [ PDict [ (lit "question", PStr (lit "Pick C"));
            (lit "options",
              PList [PStr (lit "A"); PStr (lit "B"); PStr (lit "C")]);
            (lit "answer_index", PInt 2) ] ].

Definition abc_scorable : scorable :=
  {| sc_options := [PStr (lit "A"); PStr (lit "B"); PStr (lit "C")];
     sc_answer := 2 |}.


(* ================================================================== *)
(** * Gradio callbacks *)
(* ================================================================== *)

(** The keyword arguments of one [gr.update(visible=..., label=...,
    choices=..., value=None)]. *)
Record radio_update : Type := {
  visible : bool;
  label : pystr;
  choices : pyval;
  value : pyval
}.

(** [l[i] = x] for an index counted from the front. *)
Definition list_assign {A : Type} (l : list A) (i : nat) (x : A)
  : result (list A) :=
  if (i <? length l)%nat then Ok (firstn i l ++ x :: skipn (S i) l)
  else Raise IndexError.

(** [f] applied to the elements of [l] from left to right, up to the
    first exception. *)
Fixpoint mapM {A B : Type} (f : A -> result B) (l : list A)
  : result (list B) :=
  match l with
  | [] => Ok []
  | x :: l' => y <- f x ;; ys <- mapM f l' ;; Ok (y :: ys)
  end.

(** The least index at which [needle] occurs in [hay], counted from
    [i]. *)
Fixpoint str_index_from (hay needle : pystr) (i : Z) : option Z :=
  if prefixb needle hay then Some i
  else match hay with
       | [] => None
       | _ :: hay' => str_index_from hay' needle (i + 1)%Z
       end.

(** The least index of an element equal to the string [x], counted from
    [i]. *)
Fixpoint list_index_from (l : list pyval) (x : pystr) (i : Z) : option Z :=
  match l with
  | [] => None
  | v :: l' =>
      if match v with PStr s => pystr_eqb s x | _ => false end
      then Some i
      else list_index_from l' x (i + 1)%Z
  end.

(** [c.index(x)] for a string [x]: a list and a string have the method
    and raise [ValueError] when [x] does not occur. *)
Definition py_index (c : pyval) (x : pystr) : result Z :=
  match c with
  | PList l =>
      match list_index_from l x 0%Z with
      | Some i => Ok i
      | None => Raise ValueError
      end
  | PStr s =>
      match str_index_from s x 0%Z with
      | Some i => Ok i
      | None => Raise ValueError
      end
  | _ => Raise AttributeError
  end.

Definition default_label : pystr * pyval :=
  (lit "Question",
   PList [PStr (lit "Option 1"); PStr (lit "Option 2");
          PStr (lit "Option 3")]).

Definition msg_quiz_generated : pystr :=
  lit "Quiz generated. Select your answers below.".

Section Callbacks.

Context {RT : Runtime}.

Variable GROQ_API_KEY : pystr.
Variable provider : request -> reply.

Definition on_generate_explanation
    (subject topic language level : pystr) (sent : list request)
  : outcome pystr * list request :=
  let prompt := prompt_explanation subject topic language level in
  generate_with_groq GROQ_API_KEY provider prompt sent.

Definition on_generate_resources
    (subject topic language level : pystr) (sent : list request)
  : outcome pystr * list request :=
  let prompt := prompt_resources subject topic language level in
  generate_with_groq GROQ_API_KEY provider prompt sent.

Definition on_generate_roadmap
    (subject topic language level : pystr) (sent : list request)
  : outcome pystr * list request :=
  let prompt := prompt_roadmap subject topic language level in
  generate_with_groq GROQ_API_KEY provider prompt sent.

(** The loop of [on_generate_quiz] over [enumerate(quiz)], from position
    [i], on the lists [vis] and [labels]. *)
Fixpoint fill_slots (i : nat) (quiz : list pyval) (vis : list bool)
    (labels : list (pystr * pyval))
  : result (list bool * list (pystr * pyval)) :=
  match quiz with
  | [] => Ok (vis, labels)
  | q :: quiz' =>
      vis' <- list_assign vis i true ;;
      question <- py_getitem q (PStr (lit "question")) ;;
      options <- py_getitem q (PStr (lit "options")) ;;
      labels' <-
        list_assign labels i
          (lit "Q" ++ str_of_int (Z.of_nat i + 1) ++ lit ". "
           ++ py_str question,
           options) ;;
      fill_slots (S i) quiz' vis' labels'
  end.

(** [gr.update(visible=vis[k], label=labels[k][0], choices=labels[k][1],
    value=None)] *)
Definition slot_update (vis : list bool) (labels : list (pystr * pyval))
    (k : Z) : result radio_update :=
  v <- seq_index vis k ;;
  l0 <- seq_index labels k ;;
  l1 <- seq_index labels k ;;
  Ok {| visible := v; label := fst l0; choices := snd l1; value := PNone |}.

(** What [on_generate_quiz] does with the text [raw] of the model: the
    quiz for the state, the five radio updates, and the status text. *)
Definition quiz_view (raw : pystr)
  : result (list pyval * list radio_update * pystr) :=
  parsed <- parse_quiz_json raw ;;
  quiz <- normalize_quiz parsed ;;
  r <- fill_slots 0 quiz (repeat false 5) (repeat default_label 5) ;;
  updates <- mapM (slot_update (fst r) (snd r)) [0; 1; 2; 3; 4]%Z ;;
  Ok (quiz, updates,
      match quiz with
      | [] => raw
      | _ :: _ => msg_quiz_generated
      end).

Definition on_generate_quiz
    (subject topic language level : pystr) (sent : list request)
  : outcome (result (list pyval * list radio_update * pystr))
    * list request :=
  let r :=
    generate_with_groq GROQ_API_KEY provider
      (prompt_quiz subject topic language level) sent in
  (match fst r with
   | Returned raw => Returned (quiz_view raw)
   | Raised e => Raised e
   end,
   snd r).

(** The loop of [on_display_results] over [enumerate(quiz)], from
    position [i], on the list [selections]. *)
Fixpoint selections_loop (i : nat) (quiz : list pyval)
    (selected_values : list (option pystr)) (selections : list (option Z))
  : result (list (option Z)) :=
  match quiz with
  | [] => Ok selections
  | q :: quiz' =>
      chosen <- seq_index selected_values (Z.of_nat i) ;;
      match chosen with
      | None =>
          selections_loop (S i) quiz' selected_values (selections ++ [None])
      | Some c =>
          options <- py_getitem q (PStr (lit "options")) ;;
          idx <- match py_index options c with
                 | Ok k => Ok (Some k)
                 | Raise ValueError => Ok None
                 | Raise e => Raise e
                 end ;;
          selections_loop (S i) quiz' selected_values (selections ++ [idx])
      end
  end.

(** [quiz_state] is the value of the state: a list, or [None]. *)
Definition on_display_results (quiz_state : option (list pyval))
    (a1 a2 a3 a4 a5 : option pystr) : result (pystr * pystr) :=
  let quiz := match quiz_state with
              | Some quiz => quiz
              | None => []
              end in
  let selected_values := [a1; a2; a3; a4; a5] in
  selections <- selections_loop 0 quiz selected_values [] ;;
  evaluate_answers selections quiz.

End Callbacks.


(** The items of an object; no items for any other value. *)
Definition items_of (v : pyval) : dict :=
  match v with
  | PDict d => d
  | _ => []
  end.


(** [balanced_object] decided. *)
Definition balanced_objectb (s : pystr) : bool :=
  match s with
  | c :: rest =>
      (c =? lbrace)%N
      && (last rest 0 =? rbrace)%N
      && negb (length rest =? 0)%nat
      && (depth (scan s) =? 0)%Z
      && forallb (fun k => negb (depth (scan (firstn k s)) =? 0)%Z)
           (seq 1 (length rest))
  | [] => false
  end.


Section CallbackViews.

Context {RT : Runtime}.

(** The update of radio [k] for a quiz: shown, with the numbered question
    as label and its options as choices, when the quiz has a question at
    position [k]; hidden, with the placeholder label and choices,
    otherwise. *)
Definition slot_of (quiz : list pyval) (k : nat) : radio_update :=
  match nth_error quiz k with
  | Some q =>
      {| visible := true;
         label := lit "Q" ++ str_of_int (Z.of_nat k + 1) ++ lit ". "
                  ++ py_str (field_or (items_of q) "question" PNone);
         choices := field_or (items_of q) "options" PNone;
         value := PNone |}
  | None =>
      {| visible := false;
         label := fst default_label;
         choices := snd default_label;
         value := PNone |}
  end.

(** The index given to the selected label [a] of the question [q]: the
    position of the first option that is this label; [None] when nothing
    is selected or no option is this label. *)
Definition selection_of (q : pyval) (a : option pystr) : option Z :=
  match a, field_or (items_of q) "options" PNone with
  | Some c, PList opts => list_index_from opts c 0%Z
  | _, _ => None
  end.

(** The selections for the questions [quiz], the first of them at
    position [i] of the selected labels. *)
Fixpoint selections_from (i : nat) (quiz : list pyval)
    (selected_values : list (option pystr)) : list (option Z) :=
  match quiz with
  | [] => []
  | q :: quiz' =>
      selection_of q (nth i selected_values None)
      :: selections_from (S i) quiz' selected_values
  end.

End CallbackViews.


(** A quiz of one question whose correct option, the third, repeats the
    text of the first. *)
Definition repeated_option_quiz : list pyval :=
  [ PDict [ (lit "question", PStr (lit "Sure?"));
            (lit "options",
              PList [PStr (lit "yes"); PStr (lit "no"); PStr (lit "yes")]);
            (lit "answer_index", PInt 2) ] ].

Definition repeated_option_scorable : scorable :=
  {| sc_options := [PStr (lit "yes"); PStr (lit "no"); PStr (lit "yes")];
     sc_answer := 2 |}.


(** The entry [{"question": "2+2?", "options": ["3","4","5"],
    "answer_index": true}]. *)
Definition true_index_entry : pyval :=
  PDict [ (lit "question", PStr (lit "2+2?"));
          (lit "options",
            PList [PStr (lit "3"); PStr (lit "4"); PStr (lit "5")]);
          (lit "answer_index", PBool true) ].


(* ================================================================== *)
(** * Properties: prompt builder *)
(* ================================================================== *)

Section ContainsFacts.

Lemma contains_here (a x b : pystr) : contains (a ++ x ++ b) x.
Proof. exists a, b. reflexivity. Qed.

Lemma contains_app_l (a b x : pystr) : contains a x -> contains (a ++ b) x.
Proof.
  intros (pre & post & ->). exists pre, (post ++ b).
  now rewrite <- !app_assoc.
Qed.

Lemma contains_app_r (a b x : pystr) : contains b x -> contains (a ++ b) x.
Proof.
  intros (pre & post & ->). exists (a ++ pre), post.
  now rewrite <- !app_assoc.
Qed.

Lemma contains_cons (c : N) (b x : pystr) : contains b x -> contains (c :: b) x.
Proof. apply (contains_app_r [c]). Qed.

End ContainsFacts.

Create HintDb contains_db.
#[export] Hint Resolve contains_here contains_app_l contains_app_r
  contains_cons : contains_db.

(** The context header restates its four arguments. *)
Lemma build_system_context_contains (subject topic language level : pystr) :
  let ctx := build_system_context subject topic language level in
  contains ctx subject /\ contains ctx topic
  /\ contains ctx language /\ contains ctx level.
Proof.
  cbv zeta. unfold build_system_context.
  repeat split; auto 12 with contains_db.
Qed.

(** C9.  For each of the four task kinds and for all subject, topic,
    language and level strings, the empty string included, the prompt
    contains each of the four strings literally. *)
Theorem buildPrompt_contains_context :
  forall (kind : TaskKind) (subject topic language level : pystr),
    let prompt := buildPrompt kind subject topic language level in
    contains prompt subject /\ contains prompt topic
    /\ contains prompt language /\ contains prompt level.
Proof.
  intros kind subject topic language level.
  destruct (build_system_context_contains subject topic language level)
    as (Hs & Ht & Hl & Hv).
  destruct kind; cbv zeta;
    unfold buildPrompt, prompt_explanation, prompt_resources,
      prompt_roadmap, prompt_quiz;
    repeat split; auto with contains_db.
Qed.

(* ================================================================== *)
(** * Properties: JSON quiz extractor *)
(* ================================================================== *)

Section ExtractorFacts.

Lemma scan_snoc (s : pystr) (ch : N) :
  scan (s ++ [ch]) = scan_char (scan s) ch.
Proof. unfold scan. now rewrite fold_left_app. Qed.

Lemma firstn_succ_nth (s : pystr) (k : nat) :
  (k < length s)%nat -> firstn (S k) s = firstn k s ++ [nth k s 0%N].
Proof.
  revert k. induction s as [|c s IH]; intros k Hk; simpl in Hk; [lia|].
  destruct k as [|k]; [reflexivity|].
  cbn [firstn nth app]. f_equal.
  apply IH. lia.
Qed.

(** One turn of the loop is one step of the scanner, with an early exit
    on the closing brace that brings the depth to zero. *)
Lemma extract_loop_step (text : pystr) (start i : nat) (rest : list nat)
    (st : scan_state) :
  extract_loop text start (i :: rest) (depth st) (in_string st) (escaped st)
  = let st' := scan_char st (char_at text i) in
    if negb (in_string st) && (char_at text i =? rbrace)%N
       && (depth st' =? 0)%Z
    then Some (slice text start (i + 1))
    else extract_loop text start rest (depth st') (in_string st')
           (escaped st').
Proof.
  destruct st as [d s e]. cbn [extract_loop depth in_string escaped].
  unfold scan_char. cbn [depth in_string escaped].
  destruct s.
  - destruct e; [reflexivity|].
    destruct (char_at text i =? backslash)%N; [reflexivity|].
    destruct (char_at text i =? dquote)%N; reflexivity.
  - cbn [negb andb].
    destruct (N.eqb_spec (char_at text i) dquote) as [E|_].
    { rewrite E. reflexivity. }
    destruct (N.eqb_spec (char_at text i) lbrace) as [E|_].
    { rewrite E. reflexivity. }
    destruct (char_at text i =? rbrace)%N; cbn [depth in_string escaped andb].
    + destruct (d - 1 =? 0)%Z; reflexivity.
    + reflexivity.
Qed.

(** A step of the scanner that is not the closing one keeps a positive
    depth positive. *)
Lemma scan_char_depth_pos (st : scan_state) (ch : N) :
  (1 <= depth st)%Z ->
  negb (in_string st) && (ch =? rbrace)%N
    && (depth (scan_char st ch) =? 0)%Z = false ->
  (1 <= depth (scan_char st ch))%Z.
Proof.
  destruct st as [d s e]. unfold scan_char. cbn [depth in_string escaped].
  intros Hd. destruct s.
  - destruct e; [cbn; lia|].
    destruct (ch =? backslash)%N; [cbn; lia|].
    destruct (ch =? dquote)%N; cbn; lia.
  - cbn [negb andb].
    destruct (ch =? dquote)%N; [cbn; lia|].
    destruct (ch =? lbrace)%N; [cbn; lia|].
    destruct (ch =? rbrace)%N; cbn [depth andb]; [|lia].
    destruct (Z.eqb_spec (d - 1) 0); [discriminate|lia].
Qed.

Variables pre rest : pystr.

Let text := pre ++ rest.
Let start := length pre.

Lemma char_at_rest (k : nat) : char_at text (start + k) = nth k rest 0%N.
Proof.
  unfold char_at, text, start. rewrite app_nth2 by lia. f_equal. lia.
Qed.

Lemma slice_rest (k : nat) : slice text start (start + k) = firstn k rest.
Proof.
  unfold slice, text, start.
  rewrite skipn_app, skipn_all, Nat.sub_diag. cbn [app skipn].
  f_equal. lia.
Qed.

(** The loop from index [start + k] on, entered with the scanner state
    after the first [k] characters of [rest]. *)
Lemma extract_loop_inv (m k : nat) :
  (k + m = length rest)%nat ->
  (forall k', (0 < k' <= k)%nat ->
              (1 <= depth (scan (firstn k' rest)))%Z) ->
  (1 <= k)%nat ->
  let st := scan (firstn k rest) in
  match extract_loop text start (seq (start + k) m)
          (depth st) (in_string st) (escaped st) with
  | Some s =>
      exists j, (k <= j < length rest)%nat
                /\ s = firstn (S j) rest
                /\ nth j rest 0%N = rbrace
                /\ depth (scan s) = 0%Z
                /\ forall k', (0 < k' <= j)%nat ->
                              (1 <= depth (scan (firstn k' rest)))%Z
  | None =>
      forall k', (0 < k' <= length rest)%nat ->
                 (1 <= depth (scan (firstn k' rest)))%Z
  end.
Proof.
  revert k. induction m as [|m IH]; intros k Hlen Hpos Hk; cbv zeta.
  - cbn [seq extract_loop]. intros k' Hk'. apply Hpos. lia.
  - cbn [seq]. rewrite extract_loop_step. cbv zeta.
    rewrite char_at_rest.
    assert (Hsnoc : scan (firstn (S k) rest)
                    = scan_char (scan (firstn k rest)) (nth k rest 0%N)).
    { rewrite firstn_succ_nth by lia. apply scan_snoc. }
    rewrite <- Hsnoc.
    destruct (negb (in_string (scan (firstn k rest)))
              && (nth k rest 0 =? rbrace)%N
              && (depth (scan (firstn (S k) rest)) =? 0)%Z) eqn:Hexit.
    + apply andb_prop in Hexit. destruct Hexit as [Hexit Hzero].
      apply andb_prop in Hexit. destruct Hexit as [_ Hch].
      exists k. repeat split.
      * lia.
      * lia.
      * replace (start + k + 1)%nat with (start + S k)%nat by lia.
        apply slice_rest.
      * now apply N.eqb_eq.
      * replace (start + k + 1)%nat with (start + S k)%nat by lia.
        rewrite slice_rest. now apply Z.eqb_eq.
      * intros k' Hk'. apply Hpos. lia.
    + assert (Hnext : (1 <= depth (scan (firstn (S k) rest)))%Z).
      { rewrite Hsnoc. apply scan_char_depth_pos.
        - apply Hpos. lia.
        - now rewrite <- Hsnoc. }
      replace (S (start + k)) with (start + S k)%nat by lia.
      assert (Hpos' : forall k', (0 < k' <= S k)%nat ->
                        (1 <= depth (scan (firstn k' rest)))%Z).
      { intros k' Hk'. destruct (Nat.eq_dec k' (S k)) as [->|Hne].
        - exact Hnext.
        - apply Hpos. lia. }
      specialize (IH (S k) ltac:(lia) Hpos' ltac:(lia)). cbv zeta in IH.
      destruct (extract_loop text start (seq (start + S k) m) _ _ _).
      * destruct IH as (j & Hj & Hs & Hch & Hz & Hall).
        exists j. repeat split; try assumption; lia.
      * exact IH.
Qed.

End ExtractorFacts.

Lemma str_find_from_spec (c : N) (text : pystr) (i : Z) :
  (0 <= i)%Z ->
  (~ In c text /\ str_find_from text c i = (-1)%Z)
  \/ exists pre rest,
       text = pre ++ c :: rest /\ ~ In c pre
       /\ str_find_from text c i = (i + len pre)%Z.
Proof.
  revert i. induction text as [|x text IH]; intros i Hi.
  - left. split; [intros []|reflexivity].
  - cbn [str_find_from]. destruct (N.eqb_spec x c) as [->|Hne].
    + right. exists [], text. repeat split; [intros []|].
      unfold len. cbn. lia.
    + destruct (IH (i + 1)%Z ltac:(lia)) as [[Hnot Hf]|(pre & rest & -> & Hnot & Hf)].
      * left. split; [|exact Hf]. intros [E|HIn]; [congruence|tauto].
      * right. exists (x :: pre), rest. repeat split.
        -- intros [E|HIn]; [congruence|tauto].
        -- rewrite Hf. unfold len. cbn [length]. lia.
Qed.

(** C2.  On every text the extractor answers as the string-aware
    balanced-brace matcher of the specification: it returns the block that
    starts at the first opening brace and ends at the closing brace that
    returns the depth to zero, braces inside string literals not counted;
    it returns nothing when the text has no opening brace or the depth
    never returns to zero. *)
Theorem extract_first_json_object_spec :
  forall text : pystr, matcher_spec text (_extract_first_json_object text).
Proof.
  intros text. unfold _extract_first_json_object, str_find.
  destruct (@str_find_from_spec lbrace text 0%Z ltac:(lia))
    as [[Hnot Hf]|(pre & rest & Htext & Hnot & Hf)].
  - rewrite Hf. cbn. now left.
  - rewrite Hf. unfold len.
    destruct (Z.eqb_spec (0 + Z.of_nat (length pre)) (-1)) as [E|_]; [lia|].
    replace (Z.to_nat (0 + Z.of_nat (length pre))) with (length pre) by lia.
    subst text. rewrite length_app.
    replace (length pre + length (lbrace :: rest) - length pre)%nat
      with (S (length rest)) by (cbn [length]; lia).
    cbn [seq].
    change (extract_loop (pre ++ lbrace :: rest) (length pre)
              (length pre :: seq (S (length pre)) (length rest)) 0 false false)
      with (extract_loop (pre ++ lbrace :: rest) (length pre)
              (length pre :: seq (S (length pre)) (length rest))
              (depth scan_init) (in_string scan_init) (escaped scan_init)).
    rewrite extract_loop_step. cbv zeta.
    assert (Hc : char_at (pre ++ lbrace :: rest) (length pre) = lbrace)
      by (unfold char_at; apply nth_middle).
    rewrite Hc.
    change (scan_char scan_init lbrace) with (scan (firstn 1 (lbrace :: rest))).
    cbn [negb andb in_string scan_init].
    change ((lbrace =? rbrace)%N) with false. cbn [andb].
    replace (S (length pre)) with (length pre + 1)%nat by lia.
    pose proof (@extract_loop_inv pre (lbrace :: rest) (length rest) 1) as Hinv.
    cbv zeta in Hinv.
    specialize (Hinv ltac:(cbn [length]; lia)).
    assert (Hone : forall k', (0 < k' <= 1)%nat ->
              (1 <= depth (scan (firstn k' (lbrace :: rest))))%Z).
    { intros k' Hk'. replace k' with 1%nat by lia. cbn. lia. }
    specialize (Hinv Hone ltac:(lia)).
    destruct (extract_loop (pre ++ lbrace :: rest) (length pre)
                (seq (length pre + 1) (length rest)) _ _ _) as [s|].
    + destruct Hinv as (j & Hj & Hs & Hch & Hz & Hall).
      cbn [matcher_spec]. exists pre, (skipn (S j) (lbrace :: rest)).
      split; [|split; [exact Hnot|]].
      * rewrite Hs. now rewrite firstn_skipn.
      * assert (Hlen : length s = S j).
        { rewrite Hs. rewrite length_firstn. lia. }
        split; [|split; [exact Hz|]].
        -- exists (firstn (j - 1) rest). rewrite Hs.
           rewrite firstn_succ_nth by lia. rewrite Hch.
           destruct j as [|j]; [lia|]. cbn [firstn app].
           now replace (S j - 1)%nat with j by lia.
        -- intros k Hk. rewrite Hs, firstn_firstn.
           replace (Nat.min k (S j)) with k by lia.
           specialize (Hall k ltac:(lia)). lia.
    + cbn [matcher_spec]. right. exists pre, rest.
      repeat split; try assumption.
      intros k Hk. specialize (Hinv k Hk). lia.
Qed.

Section MatcherUnique.

Lemma first_occurrence_unique (c : N) (pre1 pre2 r1 r2 : pystr) :
  pre1 ++ c :: r1 = pre2 ++ c :: r2 ->
  ~ In c pre1 -> ~ In c pre2 ->
  pre1 = pre2 /\ r1 = r2.
Proof.
  revert pre2. induction pre1 as [|x pre1 IH]; intros [|y pre2] E H1 H2.
  - cbn in E. injection E as ->. now split.
  - cbn in E. injection E as <- _. destruct H2. now left.
  - cbn in E. injection E as -> _. destruct H1. now left.
  - cbn in E. injection E as -> E.
    destruct (IH pre2 E) as [-> ->].
    + intros H. apply H1. now right.
    + intros H. apply H2. now right.
    + now split.
Qed.

Lemma app_eq_firstn {A : Type} (s1 p1 s2 p2 : list A) :
  s1 ++ p1 = s2 ++ p2 -> (length s1 <= length s2)%nat ->
  s1 = firstn (length s1) s2.
Proof.
  revert s2. induction s1 as [|x s1 IH]; intros [|y s2] E Hlen;
    cbn in *; try reflexivity; try lia.
  injection E as -> E. f_equal. apply (IH s2 E). lia.
Qed.

Lemma app_eq_same_length {A : Type} (s1 p1 s2 p2 : list A) :
  s1 ++ p1 = s2 ++ p2 -> length s1 = length s2 -> s1 = s2.
Proof.
  intros E Hlen. rewrite (app_eq_firstn _ _ _ _ E) by lia.
  rewrite Hlen. apply firstn_all.
Qed.

Lemma balanced_object_nonempty (s : pystr) :
  balanced_object s -> (0 < length s)%nat.
Proof. intros ((body & ->) & _). cbn. lia. Qed.

Lemma balanced_object_unique (s1 p1 s2 p2 : pystr) :
  s1 ++ p1 = s2 ++ p2 ->
  balanced_object s1 -> balanced_object s2 -> s1 = s2.
Proof.
  intros E B1 B2.
  pose proof (balanced_object_nonempty B1) as N1.
  pose proof (balanced_object_nonempty B2) as N2.
  destruct B1 as (_ & Z1 & M1). destruct B2 as (_ & Z2 & M2).
  destruct (Nat.lt_trichotomy (length s1) (length s2)) as [Hlt|[Heq|Hgt]].
  - exfalso. apply (M2 (length s1)); [lia|].
    now rewrite <- (app_eq_firstn _ _ _ _ E) by lia.
  - now apply app_eq_same_length with p1 p2.
  - exfalso. apply (M1 (length s2)); [lia|].
    symmetry in E. now rewrite <- (app_eq_firstn _ _ _ _ E) by lia.
Qed.

(** The specification leaves the extractor no choice: a text has one
    answer. *)
Lemma matcher_spec_functional (text : pystr) (r1 r2 : option pystr) :
  matcher_spec text r1 -> matcher_spec text r2 -> r1 = r2.
Proof.
  assert (Hmixed : forall s, matcher_spec text (Some s) ->
                             matcher_spec text None -> False).
  { intros s (pre & post & Ht & Hpre & B) Hnone.
    pose proof B as ((body & Hs) & Hz & _).
    destruct Hnone as [Hno|(pre' & rest & Ht' & Hpre' & Hnever)].
    - apply Hno. rewrite Ht, Hs. apply in_or_app. right. now left.
    - rewrite Ht, Hs in Ht'. cbn [app] in Ht'.
      destruct (first_occurrence_unique _ _ _ _ _ Ht' Hpre Hpre')
        as [_ Hrest].
      apply (Hnever (length s)).
      + rewrite Hs. cbn [length]. rewrite <- Hrest, !length_app.
        cbn [length]. lia.
      + assert (Hfirst : firstn (length s) (lbrace :: rest) = s).
        { rewrite <- Hrest, Hs. cbn [length firstn]. f_equal.
          rewrite firstn_app, firstn_all, Nat.sub_diag. cbn [firstn].
          apply app_nil_r. }
        now rewrite Hfirst. }
  destruct r1 as [s1|], r2 as [s2|]; intros H1 H2.
  - f_equal.
    destruct H1 as (pre1 & post1 & Ht1 & Hp1 & B1).
    destruct H2 as (pre2 & post2 & Ht2 & Hp2 & B2).
    pose proof B1 as ((b1 & Hs1) & _). pose proof B2 as ((b2 & Hs2) & _).
    assert (E : pre1 ++ lbrace :: (b1 ++ [rbrace]) ++ post1
                = pre2 ++ lbrace :: (b2 ++ [rbrace]) ++ post2).
    { rewrite Ht1 in Ht2. now rewrite Hs1, Hs2 in Ht2. }
    destruct (first_occurrence_unique _ _ _ _ _ E Hp1 Hp2) as [_ Hrest].
    apply balanced_object_unique with post1 post2; try assumption.
    rewrite Hs1, Hs2. cbn [app]. now f_equal.
  - exfalso. now apply (Hmixed s1).
  - exfalso. now apply (Hmixed s2).
  - reflexivity.
Qed.

End MatcherUnique.

(* ================================================================== *)
(** * Properties: quiz normalizer *)
(* ================================================================== *)

Section StripFacts.

Lemma lstrip_head (s : pystr) (c : N) (rest : pystr) :
  lstrip s = c :: rest -> isspace c = false.
Proof.
  induction s as [|x s IH]; cbn [lstrip]; [discriminate|].
  destruct (isspace x) eqn:Hx; [exact IH|].
  intros E. injection E as -> _. exact Hx.
Qed.

Lemma lstrip_suffix (s : pystr) : exists ws, s = ws ++ lstrip s.
Proof.
  induction s as [|x s [ws IH]]; cbn [lstrip]; [now exists []|].
  destruct (isspace x).
  - exists (x :: ws). cbn [app]. now f_equal.
  - now exists [].
Qed.

Lemma firstn_In_incl {A : Type} (n : nat) (l : list A) (x : A) :
  In x (firstn n l) -> In x l.
Proof.
  revert l. induction n as [|n IH]; intros [|y l]; cbn; try tauto.
  intros [E|H]; [now left|right; now apply IH].
Qed.

Lemma trimmed_strip (s : pystr) : trimmed (strip s).
Proof.
  unfold strip, rstrip. split.
  - intros c rest E.
    destruct (lstrip_suffix (rev (lstrip s))) as [ws Hws].
    apply (f_equal (@rev N)) in Hws.
    rewrite rev_involutive, rev_app_distr, E in Hws.
    apply (@lstrip_head s c (rest ++ rev ws)). exact Hws.
  - intros c front E.
    apply (f_equal (@rev N)) in E.
    rewrite rev_involutive, rev_app_distr in E. cbn [rev app] in E.
    apply (lstrip_head _ E).
Qed.

End StripFacts.

Section NormalizerFacts.

Context {RT : Runtime}.

Lemma index_ok_spec (opts : list pyval) (answer_index : pyval) :
  index_ok opts answer_index = true <->
  (3 <= len opts <= 5)%Z
  /\ exists a, int_value answer_index = Some a /\ (0 <= a < len opts)%Z.
Proof.
  unfold index_ok. split.
  - intros H. apply andb_prop in H. destruct H as [H Hidx].
    apply andb_prop in H. destruct H as [Hlen _].
    apply andb_prop in Hlen. destruct Hlen as [H3 H5].
    split; [lia|].
    destruct (int_value answer_index) as [a|]; [|discriminate].
    exists a. split; [reflexivity|]. lia.
  - intros (Hlen & a & Ha & Hrange).
    assert (Hint : isinstance_int answer_index = true).
    { destruct answer_index; cbn in Ha; try discriminate; reflexivity. }
    rewrite Ha, Hint.
    repeat (apply andb_true_intro; split); lia.
Qed.

Lemma int_value_isinstance (v : pyval) (a : Z) :
  int_value v = Some a -> isinstance_int v = true.
Proof. destruct v; cbn; intros; try discriminate; reflexivity. Qed.

(** An accepted entry is a Quiz Question record. *)
Lemma cleaned_entry_quiz_question (question : pystr) (opts : list pyval)
    (answer_index : pyval) :
  index_ok opts answer_index = true ->
  quiz_question (cleaned_entry question opts answer_index).
Proof.
  intros H. apply index_ok_spec in H. destruct H as (Hlen & a & Ha & Hrange).
  exists (strip question), (map (fun o => strip (py_str o)) opts),
    answer_index, a.
  unfold len in *. rewrite length_map.
  repeat split; try assumption; try lia.
  - unfold cleaned_entry. now rewrite map_map.
  - apply trimmed_strip.
  - apply trimmed_strip.
  - apply Forall_forall. intros o Ho. apply in_map_iff in Ho.
    destruct Ho as (x & <- & _). apply trimmed_strip.
  - now apply int_value_isinstance with a.
Qed.

Lemma normalize_step_invariant (cleaned cleaned' : list pyval) (q : pyval) :
  Forall quiz_question cleaned ->
  normalize_step cleaned q = Ok cleaned' ->
  Forall quiz_question cleaned'.
Proof.
  intros Hall. unfold normalize_step.
  destruct q; cbn [py_get bind]; try discriminate.
  destruct (match dict_lookup items (lit "question") with
            | Some x => x | None => PNone end) as [| | | |s| |];
    try (intros E; injection E as <-; exact Hall).
  destruct (match dict_lookup items (lit "options") with
            | Some x => x | None => PList [] end) as [| | | | |opts|];
    try (intros E; injection E as <-; exact Hall).
  destruct (index_ok opts _) eqn:Hok; intros E; injection E as <-.
  - apply Forall_app. split; [exact Hall|].
    constructor; [|constructor].
    now apply cleaned_entry_quiz_question.
  - exact Hall.
Qed.

Lemma normalize_loop_invariant (qs cleaned cleaned' : list pyval) :
  Forall quiz_question cleaned ->
  normalize_loop cleaned qs = Ok cleaned' ->
  Forall quiz_question cleaned'.
Proof.
  revert cleaned. induction qs as [|q qs IH]; intros cleaned Hall.
  - cbn. intros E. injection E as <-. exact Hall.
  - cbn [normalize_loop].
    destruct (normalize_step cleaned q) as [c1|e] eqn:Hstep; cbn [bind];
      [|discriminate].
    apply IH. now apply normalize_step_invariant with cleaned q.
Qed.

(** What the normalizer returns is a list of at most five Quiz Question
    records. *)
Lemma normalize_quiz_invariant (quiz : pyval) (cleaned : list pyval) :
  normalize_quiz quiz = Ok cleaned ->
  Forall quiz_question cleaned /\ (length cleaned <= 5)%nat.
Proof.
  unfold normalize_quiz.
  destruct (py_get quiz (lit "questions") (PList [])) as [questions|e];
    cbn [bind]; [|discriminate].
  destruct (py_iter questions) as [qs|e]; cbn [bind]; [|discriminate].
  destruct (normalize_loop [] qs) as [all|e] eqn:Hloop; cbn [bind];
    [|discriminate].
  intros E. assert (Hc : cleaned = firstn 5 all) by congruence.
  subst cleaned. clear E. split.
  - apply normalize_loop_invariant in Hloop; [|constructor].
    apply Forall_forall. intros r Hr.
    apply firstn_In_incl in Hr. revert r Hr. now apply Forall_forall.
  - apply firstn_le_length.
Qed.

End NormalizerFacts.

(* ================================================================== *)
(** * Properties: quiz scorer *)
(* ================================================================== *)

Section ScorerFacts.

Context {RT : Runtime}.

Lemma seq_index_ok {A : Type} (l : list A) (i : Z) (d : A) :
  (0 <= i < len l)%Z -> seq_index l i = Ok (nth (Z.to_nat i) l d).
Proof.
  intros Hi. unfold seq_index.
  destruct (Z.ltb_spec i 0); [lia|].
  destruct (Z.leb_spec 0 i); [|lia].
  destruct (Z.ltb_spec i (len l)); [|lia]. cbn [andb].
  unfold len in Hi.
  now rewrite (nth_error_nth' l d) by lia.
Qed.

(** Reading the selection of a position never fails: a position past the
    end of the list reads as unanswered. *)
Lemma choice_at_ok (user_choices : list (option Z)) (i : nat) :
  choice_at user_choices i = Ok (selection_at user_choices i).
Proof.
  unfold choice_at, selection_at.
  destruct (Z.ltb_spec (Z.of_nat i) (len user_choices)) as [Hlt|Hge].
  - rewrite (seq_index_ok user_choices None) by lia.
    now rewrite Nat2Z.id.
  - unfold len in Hge. now rewrite nth_overflow by lia.
Qed.

Lemma choice_eq_verdict (selection : option Z) (answer_index : pyval)
    (s : scorable) :
  int_value answer_index = Some (sc_answer s) ->
  choice_eq selection answer_index = verdict selection s.
Proof.
  intros Ha. destruct selection as [u|];
    destruct answer_index as [| [|] | n | | | |];
    cbn in Ha |- *; try discriminate; try reflexivity;
    injection Ha as <-; reflexivity.
Qed.

Lemma chosen_label_ok (d : dict) (selection : option Z) (s : scorable) :
  dict_lookup d (lit "options") = Some (PList (sc_options s)) ->
  chosen_label (PDict d) selection = Ok (chosen_text selection s).
Proof.
  intros Hopts. unfold chosen_label, chosen_text, in_range.
  destruct selection as [u|]; [|reflexivity].
  destruct (Z.leb_spec 0 u) as [H0|H0]; cbn [andb]; [|reflexivity].
  cbn [py_getitem]. rewrite Hopts. cbn [bind py_len].
  destruct (Z.ltb_spec u (len (sc_options s))) as [Hlt|Hge]; [|reflexivity].
  cbn [bind py_getitem int_value].
  now rewrite (seq_index_ok (sc_options s) PNone) by lia.
Qed.

(** One turn of the scoring loop on a well-formed question. *)
Lemma score_question_ok (user_choices : list (option Z)) (i : nat)
    (q : pyval) (s : scorable) :
  represents q s ->
  score_question user_choices i q
  = Ok (verdict (selection_at user_choices i) s,
        detail_line i (selection_at user_choices i) s).
Proof.
  intros (d & answer_index & -> & Hopts & Hans & Hval & Hrange).
  unfold score_question. rewrite choice_at_ok. cbn [bind].
  cbn [py_getitem]. rewrite Hans. cbn [bind].
  rewrite (chosen_label_ok d _ s Hopts). cbn [bind].
  rewrite Hopts. cbn [bind py_getitem]. rewrite Hval.
  rewrite (seq_index_ok (sc_options s) PNone) by lia. cbn [bind].
  now rewrite (choice_eq_verdict _ _ s Hval).
Qed.

Lemma score_loop_ok (user_choices : list (option Z)) (quiz_data : list pyval)
    (qs : list scorable) :
  Forall2 represents quiz_data qs ->
  forall (i : nat) (correct : Z) (details : list pystr),
    score_loop user_choices i quiz_data correct details
    = Ok ((correct + correct_count user_choices i qs)%Z,
          details ++ detail_lines user_choices i qs).
Proof.
  induction 1 as [|q s quiz_data qs Hq _ IH]; intros i correct details.
  - cbn. now rewrite Z.add_0_r, app_nil_r.
  - cbn [score_loop correct_count detail_lines].
    rewrite (score_question_ok user_choices i Hq). cbn [bind fst snd].
    rewrite IH. rewrite <- app_assoc. cbn [app].
    destruct (verdict (selection_at user_choices i) s); do 2 f_equal; lia.
Qed.

Lemma correct_count_bounds (user_choices : list (option Z))
    (qs : list scorable) (i : nat) :
  (0 <= correct_count user_choices i qs <= len qs)%Z.
Proof.
  revert i. unfold len.
  induction qs as [|s qs IH]; intros i; cbn [correct_count length]; [lia|].
  specialize (IH (S i)).
  destruct (verdict (selection_at user_choices i) s); lia.
Qed.

(** The whole report of the scorer on a well-formed quiz. *)
Lemma evaluate_answers_report (user_choices : list (option Z))
    (quiz_data : list pyval) (qs : list scorable) :
  Forall2 represents quiz_data qs ->
  evaluate_answers user_choices quiz_data
  = Ok (match quiz_data with
        | [] => (msg_no_quiz, [])
        | _ :: _ =>
            let correct := correct_count user_choices 0 qs in
            let total := len quiz_data in
            (score_line correct total,
             feedback_tier correct total ++ nl ++ nl
             ++ join nl (detail_lines user_choices 0 qs))
        end).
Proof.
  intros Hrep. unfold evaluate_answers.
  rewrite (score_loop_ok user_choices Hrep). cbn [bind fst snd app].
  destruct quiz_data as [|q quiz_data]; [reflexivity|].
  unfold len at 1. cbn [length].
  destruct (Z.eqb_spec (Z.of_nat (S (length quiz_data))) 0); [lia|].
  reflexivity.
Qed.

End ScorerFacts.

(** The binary64 product [total * 0.6] decides "at least 60%" as exact
    arithmetic does, on every total up to 100. *)
Lemma at_least_60_percent_checked :
  forallb (fun t =>
    forallb (fun c =>
      Bool.eqb (at_least_60_percent (Z.of_nat c) (Z.of_nat t))
               (60 * Z.of_nat t <=? 100 * Z.of_nat c)%Z)
      (seq 0 (S t)))
    (seq 0 101) = true.
Proof. vm_compute. reflexivity. Qed.

Lemma at_least_60_percent_exact (correct total : Z) :
  (0 <= correct <= total)%Z -> (total <= 100)%Z ->
  at_least_60_percent correct total = (60 * total <=? 100 * correct)%Z.
Proof.
  intros Hc Ht.
  pose proof at_least_60_percent_checked as H.
  rewrite forallb_forall in H.
  specialize (H (Z.to_nat total)).
  rewrite forallb_forall in H.
  specialize (H ltac:(apply in_seq; lia) (Z.to_nat correct)
                ltac:(apply in_seq; lia)).
  rewrite !Z2Nat.id in H by lia.
  now apply Bool.eqb_prop.
Qed.

Lemma feedback_tier_exact (correct total : Z) :
  (0 <= correct <= total)%Z -> (total <= 100)%Z ->
  feedback_tier correct total = tier_message correct total.
Proof.
  intros Hc Ht. unfold feedback_tier, tier_message.
  now rewrite at_least_60_percent_exact.
Qed.

Section NormalizedQuizIsScorable.

Context {RT : Runtime}.

(** A Quiz Question record is a question the scorer can read. *)
Lemma quiz_question_represents (r : pyval) :
  quiz_question r -> exists s, represents r s.
Proof.
  intros (question & options & answer_index & a & -> & _ & _ & _ & _
          & Ha & Hr).
  exists {| sc_options := map PStr options; sc_answer := a |}.
  eexists _, answer_index. cbn [sc_options sc_answer].
  repeat split; try reflexivity; try assumption;
    unfold len in *; rewrite ?length_map; lia.
Qed.

(** Every quiz the normalizer returns satisfies what the theorems on the
    scorer assume. *)
Lemma normalize_quiz_scorable (quiz : pyval) (cleaned : list pyval) :
  normalize_quiz quiz = Ok cleaned ->
  (exists qs, Forall2 represents cleaned qs) /\ (len cleaned <= 100)%Z.
Proof.
  intros H. apply normalize_quiz_invariant in H. destruct H as [Hall Hlen].
  split; [|unfold len; lia].
  clear Hlen. induction Hall as [|r cleaned Hr _ [qs IH]].
  - now exists [].
  - destruct (quiz_question_represents Hr) as [s Hs].
    exists (s :: qs). now constructor.
Qed.

(** Scoring a normalized quiz returns, whatever the selections are. *)
Lemma evaluate_answers_on_normalized (quiz : pyval) (cleaned : list pyval)
    (user_choices : list (option Z)) :
  normalize_quiz quiz = Ok cleaned ->
  exists summary feedback,
    evaluate_answers user_choices cleaned = Ok (summary, feedback).
Proof.
  intros H. apply normalize_quiz_scorable in H. destruct H as [[qs Hrep] _].
  rewrite (evaluate_answers_report user_choices Hrep).
  destruct cleaned; now eexists _, _.
Qed.

End NormalizedQuizIsScorable.

(* ================================================================== *)
(** * The claims about the scorer *)
(* ================================================================== *)

(** C5.  For every selections list: on the empty quiz the scorer returns
    the fixed "No quiz generated yet." summary with empty feedback; on a
    non-empty quiz it reports the number of correct answers out of the
    total, then the mastery message when all answers are correct, the
    review message when at least 60% but not all are, and the revisit
    message below 60%, followed by the detail lines.  The quiz is one the
    data model allows (well-formed questions); the comparison with 60% is
    made in binary64 and is exact on every quiz of up to 100 questions. *)
Theorem evaluate_answers_summary :
  forall (RT : Runtime) (user_choices : list (option Z)),
    evaluate_answers user_choices [] = Ok (msg_no_quiz, [])
    /\ forall (quiz_data : list pyval) (qs : list scorable),
         quiz_data <> [] ->
         Forall2 represents quiz_data qs ->
         (len quiz_data <= 100)%Z ->
         let correct := correct_count user_choices 0 qs in
         let total := len quiz_data in
         evaluate_answers user_choices quiz_data
         = Ok (lit "Score: " ++ str_of_int correct ++ lit " / "
               ++ str_of_int total,
               tier_message correct total ++ nl ++ nl
               ++ join nl (detail_lines user_choices 0 qs))
         /\ (correct = total -> tier_message correct total = msg_mastery)
         /\ (correct <> total -> (60 * total <= 100 * correct)%Z ->
             tier_message correct total = msg_review)
         /\ ((100 * correct < 60 * total)%Z ->
             tier_message correct total = msg_revisit).
Proof.
  intros RT user_choices. split; [reflexivity|].
  intros quiz_data qs Hne Hrep Hlen. cbv zeta.
  pose proof (correct_count_bounds user_choices qs 0) as Hb.
  assert (Hlenqs : len qs = len quiz_data).
  { unfold len. f_equal. symmetry. now apply Forall2_length with (1 := Hrep). }
  rewrite Hlenqs in Hb.
  split; [|split; [|split]].
  - rewrite (evaluate_answers_report user_choices Hrep).
    destruct quiz_data as [|q quiz_data]; [congruence|]. cbv zeta.
    now rewrite feedback_tier_exact by lia.
  - intros E. unfold tier_message. now rewrite E, Z.eqb_refl.
  - intros Hneq Hge. unfold tier_message.
    destruct (Z.eqb_spec (correct_count user_choices 0 qs) (len quiz_data));
      [contradiction|].
    destruct (Z.leb_spec (60 * len quiz_data)
                (100 * correct_count user_choices 0 qs)); [reflexivity|lia].
  - intros Hlt. unfold tier_message.
    destruct (Z.eqb_spec (correct_count user_choices 0 qs) (len quiz_data));
      [lia|].
    destruct (Z.leb_spec (60 * len quiz_data)
                (100 * correct_count user_choices 0 qs)); [lia|reflexivity].
Qed.

(** The example of the specification: one question answered correctly
    gives 1 out of 1 and the mastery message. *)
Lemma evaluate_answers_summary_witness :
  evaluate_answers (RT := example_runtime) [Some 2%Z] abc_quiz
  = Ok (lit "Score: 1 / 1",
        msg_mastery ++ nl ++ nl
        ++ lit "Q1: " ++ msg_correct
        ++ lit " | Your answer: C | Correct: C").
Proof.
  destruct (@evaluate_answers_summary example_runtime [Some 2%Z]) as [_ H].
  destruct (H abc_quiz [abc_scorable]) as [E _].
  - discriminate.
  - repeat constructor. eexists _, (PInt 2).
    repeat split; cbn; try reflexivity; unfold len; cbn; lia.
  - unfold len. cbn. lia.
  - exact E.
Defined.

Section ScoreCounting.

Context {RT : Runtime}.

(** Past the end of the selections nothing is counted. *)
Lemma correct_count_past_end (selections : list (option Z))
    (qs : list scorable) (i : nat) :
  (length selections <= i)%nat -> correct_count selections i qs = 0%Z.
Proof.
  revert i. induction qs as [|s qs IH]; intros i Hi; cbn [correct_count];
    [reflexivity|].
  unfold selection_at at 1. rewrite nth_overflow by lia. cbn [verdict].
  rewrite IH by lia. reflexivity.
Qed.

(** The count of the loop is the number of positions that carry both a
    selection and a question and whose selection is the answer index. *)
Lemma correct_count_pairs (before selections : list (option Z))
    (qs : list scorable) :
  correct_count (before ++ selections) (length before) qs
  = Z.of_nat
      (length (filter (fun p => verdict (fst p) (snd p))
                      (combine selections qs))).
Proof.
  revert before selections.
  induction qs as [|s qs IH]; intros before selections.
  - now destruct selections.
  - cbn [correct_count]. destruct selections as [|x selections].
    + rewrite app_nil_r. unfold selection_at. rewrite nth_overflow by lia.
      cbn [verdict combine filter length].
      now rewrite correct_count_past_end by lia.
    + unfold selection_at at 1. rewrite nth_middle.
      replace (before ++ x :: selections)
        with ((before ++ [x]) ++ selections)
        by (now rewrite <- app_assoc).
      replace (S (length before)) with (length (before ++ [x]))
        by (rewrite length_app; cbn [length]; lia).
      rewrite IH. cbn [combine filter fst snd].
      destruct (verdict x s); cbn [length]; lia.
Qed.

Lemma detail_lines_length (selections : list (option Z))
    (qs : list scorable) (i : nat) :
  length (detail_lines selections i qs) = length qs.
Proof.
  revert i. induction qs as [|s qs IH]; intros i; cbn; [reflexivity|].
  now rewrite IH.
Qed.

Lemma detail_lines_nth (selections : list (option Z)) (qs : list scorable)
    (i k : nat) (s : scorable) :
  nth_error qs k = Some s ->
  nth_error (detail_lines selections i qs) k
  = Some (detail_line (i + k) (selection_at selections (i + k)) s).
Proof.
  revert i k. induction qs as [|s' qs IH]; intros i [|k] Hs; cbn in Hs;
    try discriminate.
  - injection Hs as ->. cbn. now rewrite Nat.add_0_r.
  - cbn [detail_lines nth_error]. rewrite (IH (S i) k Hs).
    now replace (S i + k)%nat with (i + S k)%nat by lia.
Qed.

(** The report of the scorer with the count written out. *)
Lemma evaluate_answers_counted (user_choices : list (option Z))
    (quiz_data : list pyval) (qs : list scorable) :
  Forall2 represents quiz_data qs ->
  let correct :=
    Z.of_nat (length (filter (fun p => verdict (fst p) (snd p))
                             (combine user_choices qs))) in
  evaluate_answers user_choices quiz_data
  = Ok (match quiz_data with
        | [] => (msg_no_quiz, [])
        | _ :: _ =>
            (lit "Score: " ++ str_of_int correct ++ lit " / "
             ++ str_of_int (len quiz_data),
             feedback_tier correct (len quiz_data) ++ nl ++ nl
             ++ join nl (detail_lines user_choices 0 qs))
        end).
Proof.
  intros Hrep. cbv zeta.
  rewrite (evaluate_answers_report user_choices Hrep).
  pose proof (correct_count_pairs [] user_choices qs) as Hc.
  cbn [app length] in Hc. rewrite <- Hc. reflexivity.
Qed.

End ScoreCounting.

(** C6.  For every quiz and position-aligned selections, the scorer
    returns the score line with the number of positions whose selected
    index is the answer index of their question, and one detail line per
    question.  Each detail line gives the verdict that compares the
    selected index with the answer index; an unanswered position, or one
    whose selected index is not in [0, len(options)), is not counted, is
    marked incorrect and has the chosen label "No answer"; every detail
    line reports the label of the correct option. *)
Theorem evaluate_answers_verdicts :
  forall (RT : Runtime) (user_choices : list (option Z))
         (quiz_data : list pyval) (qs : list scorable),
    Forall2 represents quiz_data qs ->
    length user_choices = length quiz_data ->
    quiz_data <> [] ->
    let correct :=
      Z.of_nat
        (length (filter (fun p =>
                           match fst p with
                           | Some u => (u =? sc_answer (snd p))%Z
                           | None => false
                           end)
                        (combine user_choices qs))) in
    evaluate_answers user_choices quiz_data
    = Ok (lit "Score: " ++ str_of_int correct ++ lit " / "
          ++ str_of_int (len quiz_data),
          feedback_tier correct (len quiz_data) ++ nl ++ nl
          ++ join nl (detail_lines user_choices 0 qs))
    /\ length (detail_lines user_choices 0 qs) = length quiz_data
    /\ forall (i : nat) (s : scorable),
         nth_error qs i = Some s ->
         let selection := nth i user_choices None in
         nth_error (detail_lines user_choices 0 qs) i
         = Some (lit "Q" ++ str_of_int (Z.of_nat i + 1) ++ lit ": "
                 ++ (if verdict selection s then msg_correct
                     else msg_incorrect)
                 ++ lit " | Your answer: " ++ chosen_text selection s
                 ++ lit " | Correct: "
                 ++ py_str (nth (Z.to_nat (sc_answer s)) (sc_options s) PNone))
         /\ (verdict selection s = true <-> selection = Some (sc_answer s))
         /\ (forall u, selection = Some u ->
                       (0 <= u < len (sc_options s))%Z ->
                       chosen_text selection s
                       = py_str (nth (Z.to_nat u) (sc_options s) PNone))
         /\ (selection = None
             \/ (exists u, selection = Some u
                           /\ (u < 0 \/ len (sc_options s) <= u)%Z) ->
             verdict selection s = false
             /\ chosen_text selection s = msg_no_answer).
Proof.
  intros RT user_choices quiz_data qs Hrep Hlen Hne. cbv zeta.
  split; [|split].
  - pose proof (evaluate_answers_counted user_choices Hrep) as H.
    cbv zeta in H. rewrite H.
    destruct quiz_data as [|q quiz_data]; [congruence|]. reflexivity.
  - rewrite detail_lines_length. symmetry.
    now apply Forall2_length with (1 := Hrep).
  - intros i s Hs. split; [|split; [|split]].
    + rewrite (@detail_lines_nth _ user_choices _ 0%nat _ _ Hs). reflexivity.
    + destruct (nth i user_choices None) as [u|]; cbn [verdict].
      * rewrite Z.eqb_eq. split; [now intros ->|now intros [=]].
      * split; discriminate.
    + intros u -> Hu. cbn [chosen_text in_range].
      destruct (Z.leb_spec 0 u); [|lia].
      destruct (Z.ltb_spec u (len (sc_options s))); [reflexivity|lia].
    + assert (Hrange : (0 <= sc_answer s < len (sc_options s))%Z).
      { apply nth_error_In in Hs.
        assert (Hall : Forall (fun s => (0 <= sc_answer s
                                         < len (sc_options s))%Z) qs).
        { clear -Hrep. induction Hrep as [|q s' l l' Hq _ IH];
            constructor; [|exact IH].
          destruct Hq as (d & a & _ & _ & _ & _ & Hr). exact Hr. }
        rewrite Forall_forall in Hall. now apply Hall. }
      intros [->|(u & -> & Hu)]; [split; reflexivity|].
      cbn [verdict chosen_text in_range]. split.
      * apply Z.eqb_neq. lia.
      * destruct (Z.leb_spec 0 u); cbn [andb]; [|reflexivity].
        destruct (Z.ltb_spec u (len (sc_options s))); [lia|reflexivity].
Qed.

(** An unanswered position of the example quiz: nothing is counted. *)
Lemma evaluate_answers_verdicts_witness :
  evaluate_answers (RT := example_runtime) [None] abc_quiz
  = Ok (lit "Score: 0 / 1",
        msg_revisit ++ nl ++ nl
        ++ lit "Q1: " ++ msg_incorrect
        ++ lit " | Your answer: No answer | Correct: C")
  /\ @chosen_text example_runtime None abc_scorable = msg_no_answer.
Proof.
  destruct (@evaluate_answers_verdicts example_runtime [None] abc_quiz
              [abc_scorable]) as (Hrun & _ & H).
  - repeat constructor. eexists _, (PInt 2).
    repeat split; cbn; try reflexivity; unfold len; cbn; lia.
  - reflexivity.
  - discriminate.
  - split; [exact Hrun|].
    destruct (H 0%nat abc_scorable eq_refl) as (_ & _ & _ & Hno).
    apply Hno. now left.
Defined.

(** C10.  For every quiz and every selections list, a list shorter than
    the quiz included, the scorer returns normally: no access past the
    end of the selections is made.  A position without a selection is
    scored as unanswered: it is not counted in the score, and its detail
    line is marked incorrect with the chosen label "No answer".  The
    result is the one for the selections padded with None. *)
Theorem evaluate_answers_short_selections :
  forall (RT : Runtime) (user_choices : list (option Z))
         (quiz_data : list pyval) (qs : list scorable),
    Forall2 represents quiz_data qs ->
    let correct :=
      Z.of_nat
        (length (filter (fun p =>
                           match fst p with
                           | Some u => (u =? sc_answer (snd p))%Z
                           | None => false
                           end)
                        (combine user_choices qs))) in
    evaluate_answers user_choices quiz_data
    = Ok (match quiz_data with
          | [] => (msg_no_quiz, [])
          | _ :: _ =>
              (lit "Score: " ++ str_of_int correct ++ lit " / "
               ++ str_of_int (len quiz_data),
               feedback_tier correct (len quiz_data) ++ nl ++ nl
               ++ join nl (detail_lines user_choices 0 qs))
          end)
    /\ length (detail_lines user_choices 0 qs) = length quiz_data
    /\ (forall (i : nat) (s : scorable),
           (length user_choices <= i)%nat ->
           nth_error qs i = Some s ->
           nth_error (detail_lines user_choices 0 qs) i
           = Some (lit "Q" ++ str_of_int (Z.of_nat i + 1) ++ lit ": "
                   ++ msg_incorrect
                   ++ lit " | Your answer: " ++ msg_no_answer
                   ++ lit " | Correct: "
                   ++ py_str (nth (Z.to_nat (sc_answer s)) (sc_options s)
                                PNone)))
    /\ (forall (i : nat) (s : scorable),
           (i < length user_choices)%nat ->
           nth_error qs i = Some s ->
           nth_error (detail_lines user_choices 0 qs) i
           = Some (detail_line i (nth i user_choices None) s))
    /\ (exists summary feedback,
           evaluate_answers user_choices quiz_data = Ok (summary, feedback))
    /\ evaluate_answers user_choices quiz_data
       = evaluate_answers
           (user_choices
            ++ repeat None (length quiz_data - length user_choices))
           quiz_data
    /\ forall (i : nat) (q : pyval) (s : scorable),
         (length user_choices <= i)%nat ->
         nth_error quiz_data i = Some q ->
         represents q s ->
         choice_at user_choices i = Ok None
         /\ score_question user_choices i q
            = Ok (false,
                  lit "Q" ++ str_of_int (Z.of_nat i + 1) ++ lit ": "
                  ++ msg_incorrect
                  ++ lit " | Your answer: " ++ msg_no_answer
                  ++ lit " | Correct: "
                  ++ py_str (nth (Z.to_nat (sc_answer s)) (sc_options s)
                               PNone)).
Proof.
  intros RT user_choices quiz_data qs Hrep. cbv zeta.
  split; [|split; [|split; [|split; [|split; [|split]]]]].
  - exact (evaluate_answers_counted user_choices Hrep).
  - rewrite detail_lines_length. symmetry.
    now apply Forall2_length with (1 := Hrep).
  - intros i s Hi Hs. rewrite (@detail_lines_nth _ user_choices _ 0%nat _ _ Hs).
    cbn [Nat.add]. unfold selection_at. rewrite nth_overflow by lia.
    reflexivity.
  - intros i s Hi Hs. rewrite (@detail_lines_nth _ user_choices _ 0%nat _ _ Hs).
    reflexivity.
  - rewrite (evaluate_answers_report user_choices Hrep).
    destruct quiz_data; now eexists _, _.
  - rewrite !(evaluate_answers_report _ Hrep).
    set (padded := user_choices ++ repeat None _).
    assert (Hsel : forall i, selection_at padded i
                             = selection_at user_choices i).
    { intros i. unfold selection_at, padded.
      destruct (Nat.lt_ge_cases i (length user_choices)) as [Hlt|Hge].
      - now rewrite app_nth1.
      - rewrite app_nth2 by lia. rewrite nth_repeat.
        now rewrite nth_overflow by lia. }
    assert (Hcount : forall qs' k, correct_count padded k qs'
                                   = correct_count user_choices k qs').
    { induction qs' as [|s qs' IH]; intros k; cbn; [reflexivity|].
      now rewrite Hsel, IH. }
    assert (Hlines : forall qs' k, detail_lines padded k qs'
                                   = detail_lines user_choices k qs').
    { induction qs' as [|s qs' IH]; intros k; cbn; [reflexivity|].
      now rewrite Hsel, IH. }
    now rewrite Hcount, Hlines.
  - intros i q s Hi Hq Hs.
    assert (Hnone : selection_at user_choices i = None).
    { unfold selection_at. now rewrite nth_overflow by lia. }
    split.
    + now rewrite choice_at_ok, Hnone.
    + rewrite (score_question_ok user_choices i Hs), Hnone. reflexivity.
Qed.

(** The example quiz scored with no selection at all. *)
Lemma evaluate_answers_short_selections_witness :
  evaluate_answers (RT := example_runtime) [] abc_quiz
  = Ok (lit "Score: 0 / 1",
        msg_revisit ++ nl ++ nl
        ++ lit "Q1: " ++ msg_incorrect
        ++ lit " | Your answer: No answer | Correct: C")
  /\ evaluate_answers (RT := example_runtime) [] abc_quiz
     = evaluate_answers (RT := example_runtime) [None] abc_quiz.
Proof.
  destruct (@evaluate_answers_short_selections example_runtime [] abc_quiz
              [abc_scorable]) as (Hrun & _ & _ & _ & _ & Hpad & _).
  - repeat constructor. eexists _, (PInt 2).
    repeat split; cbn; try reflexivity; unfold len; cbn; lia.
  - split; [exact Hrun|exact Hpad].
Defined.

(* ================================================================== *)
(** * The claims about the normalizer *)
(* ================================================================== *)

Section NormalizerOnObjects.

Context {RT : Runtime}.

(** [entry_validb] decides the conditions of the specification. *)
Lemma entry_validb_spec (d : dict) :
  entry_validb d = true <-> entry_valid d.
Proof.
  unfold entry_validb, entry_valid, field_or. split.
  - destruct (dict_lookup d (lit "question")) as [[| | | |s| |]|];
      try discriminate.
    destruct (dict_lookup d (lit "options")) as [[| | | | |opts|]|];
      try discriminate.
    intros H. apply index_ok_spec in H.
    destruct H as (Hlen & a & Ha & Hr).
    destruct (dict_lookup d (lit "answer_index")) as [ai|];
      [|discriminate].
    now exists s, opts, ai, a.
  - intros (s & opts & ai & a & -> & -> & -> & Hlen & Ha & Hr).
    apply index_ok_spec. split; [exact Hlen|]. now exists a.
Qed.

Lemma normalize_step_object (cleaned : list pyval) (d : dict) :
  normalize_step cleaned (PDict d)
  = Ok (cleaned ++ (if entry_validb d then [entry_cleaned d] else [])).
Proof.
  unfold normalize_step, entry_validb, entry_cleaned, field_or.
  cbn [py_get bind].
  destruct (match dict_lookup d (lit "question") with
            | Some x => x | None => PNone end);
    try now rewrite app_nil_r.
  destruct (match dict_lookup d (lit "options") with
            | Some x => x | None => PList [] end);
    try now rewrite app_nil_r.
  destruct (index_ok _ _); [reflexivity|now rewrite app_nil_r].
Qed.

Lemma normalize_loop_objects (entries : list dict) (cleaned : list pyval) :
  normalize_loop cleaned (map PDict entries)
  = Ok (cleaned ++ map entry_cleaned (filter entry_validb entries)).
Proof.
  revert cleaned. induction entries as [|d entries IH]; intros cleaned.
  - cbn. now rewrite app_nil_r.
  - cbn [map normalize_loop filter]. rewrite normalize_step_object.
    cbn [bind]. rewrite IH, <- app_assoc.
    destruct (entry_validb d); reflexivity.
Qed.

(** On a structure whose [questions] is a list of objects the normalizer
    keeps exactly the entries that pass the checks, in their order,
    cleaned, and at most five of them. *)
Lemma normalize_quiz_on_objects (d : dict) (entries : list dict) :
  dict_lookup d (lit "questions") = Some (PList (map PDict entries)) ->
  normalize_quiz (PDict d)
  = Ok (firstn 5 (map entry_cleaned (filter entry_validb entries))).
Proof.
  intros Hq. unfold normalize_quiz. cbn [py_get bind]. rewrite Hq.
  cbn [py_iter bind]. now rewrite normalize_loop_objects.
Qed.

(** Without a [questions] key the result is empty. *)
Lemma normalize_quiz_no_questions (d : dict) :
  dict_lookup d (lit "questions") = None -> normalize_quiz (PDict d) = Ok [].
Proof.
  intros Hq. unfold normalize_quiz. cbn [py_get bind]. now rewrite Hq.
Qed.

(** An entry that is not an object stops the normalizer with an
    exception, whatever the entries before it are. *)
Lemma normalize_loop_non_object (before : list dict) (q : pyval)
    (after cleaned : list pyval) :
  (forall d, q <> PDict d) ->
  normalize_loop cleaned (map PDict before ++ q :: after)
  = Raise AttributeError.
Proof.
  intros Hq. revert cleaned.
  induction before as [|d before IH]; intros cleaned.
  - cbn [map app normalize_loop]. unfold normalize_step.
    destruct q; try reflexivity. now destruct (Hq items).
  - cbn [map app normalize_loop]. rewrite normalize_step_object.
    cbn [bind]. apply IH.
Qed.

End NormalizerOnObjects.

(** C1.  The normalizer on [{"questions": [1, e]}], where [e] is the
    valid entry [sum_entry]: the entry [1] is not dropped, the call ends
    with an [AttributeError] and the valid entry [e] is lost with it;
    without the entry [1] the same [e] is kept. *)
Theorem normalize_quiz_non_object_entry :
  forall RT : Runtime,
    normalize_quiz (quiz_of [PInt 1; sum_entry]) = Raise AttributeError
    /\ normalize_quiz (quiz_of [sum_entry]) = Ok [sum_entry].
Proof. intros RT. split; reflexivity. Qed.

(** An entry whose [answer_index] equals the number of options is dropped
    and its valid sibling is kept. *)
Example normalize_quiz_drops_out_of_range :
  forall RT : Runtime,
    normalize_quiz (quiz_of [sum_entry_out_of_range; sum_entry])
    = Ok [sum_entry].
Proof. intros RT. reflexivity. Qed.

(** C4, as stated, fails: an entry whose question holds only spaces is
    kept, and the question of the record kept for it is empty. *)
Lemma normalize_quiz_keeps_blank_question :
  normalize_quiz (RT := example_runtime) (quiz_of [blank_entry])
  = Ok [blank_entry_cleaned]
  /\ ~ quiz_question_nonempty blank_entry_cleaned.
Proof.
  split; [reflexivity|].
  intros (d & question & Hd & Hq & Hne).
  injection Hd as <-. cbn in Hq. injection Hq as <-. now apply Hne.
Qed.

Section NormalizerProvenance.

Context {RT : Runtime}.

(** When the loop returns, every element it visited is an object, and
    the list it returns is the list it started with followed by the
    cleaned forms of the entries that pass the checks. *)
Lemma normalize_loop_returns (qs cleaned result : list pyval) :
  normalize_loop cleaned qs = Ok result ->
  exists entries,
    qs = map PDict entries
    /\ result = cleaned ++ map entry_cleaned (filter entry_validb entries).
Proof.
  revert cleaned. induction qs as [|q qs IH]; intros cleaned H.
  - exists []. cbn in H. injection H as <-. now rewrite app_nil_r.
  - cbn [normalize_loop] in H.
    destruct q as [| | | | | |d]; try discriminate.
    rewrite normalize_step_object in H. cbn [bind] in H.
    destruct (IH _ H) as (entries & -> & ->).
    exists (d :: entries). split; [reflexivity|].
    cbn [filter]. rewrite <- app_assoc.
    now destruct (entry_validb d).
Qed.

(** What a returned list says of the input. *)
Lemma normalize_quiz_returns (quiz : pyval) (cleaned : list pyval) :
  normalize_quiz quiz = Ok cleaned ->
  exists (top : dict) (entries : list dict),
    quiz = PDict top
    /\ py_iter (field_or top "questions" (PList [])) = Ok (map PDict entries)
    /\ cleaned = firstn 5 (map entry_cleaned (filter entry_validb entries)).
Proof.
  unfold normalize_quiz. destruct quiz as [| | | | | |top]; try discriminate.
  cbn [py_get bind]. fold (field_or top "questions" (PList [])).
  destruct (py_iter (field_or top "questions" (PList []))) as [qs|e]
    eqn:Hiter; cbn [bind]; [|discriminate].
  destruct (normalize_loop [] qs) as [result|e] eqn:Hloop; cbn [bind];
    [|discriminate].
  intros E. assert (Hc : cleaned = firstn 5 result) by congruence.
  destruct (normalize_loop_returns _ _ Hloop) as (entries & -> & ->).
  exists top, entries. now repeat split.
Qed.

(** The record kept for an entry that passes the checks, written out. *)
Lemma entry_cleaned_valid (d : dict) :
  entry_validb d = true ->
  exists (question : pystr) (options : list pyval) (answer_index : pyval)
         (a : Z),
    dict_lookup d (lit "question") = Some (PStr question)
    /\ dict_lookup d (lit "options") = Some (PList options)
    /\ dict_lookup d (lit "answer_index") = Some answer_index
    /\ (3 <= len options <= 5)%Z
    /\ (answer_index = PInt a
        \/ (answer_index = PBool true /\ a = 1%Z)
        \/ (answer_index = PBool false /\ a = 0%Z))
    /\ (0 <= a < len options)%Z
    /\ entry_cleaned d
       = PDict [ (lit "question", PStr (strip question));
                 (lit "options",
                   PList (map (fun o => PStr (strip (py_str o))) options));
                 (lit "answer_index", answer_index) ].
Proof.
  intros Hv. pose proof Hv as Hvalid. apply entry_validb_spec in Hvalid.
  destruct Hvalid as (question & options & answer_index & a & Hq & Ho
                      & Ha & Hlen & Hval & Hrange).
  exists question, options, answer_index, a.
  repeat split; try assumption; try lia.
  - destruct answer_index as [| [|] | n | | | |]; cbn in Hval;
      try discriminate; injection Hval as <-; auto.
  - unfold entry_cleaned, field_or. now rewrite Hq, Ho, Ha.
Qed.

End NormalizerProvenance.

(** C4, amended.  Every record the normalizer returns comes from an entry
    of the input's questions list that passes every check of the
    normalizer, and from no other: the entry's question is a string (it
    may be blank: the normalizer does not test it for emptiness), its
    options are a list of three to five elements, and its answer index
    is an integer, or a boolean, which Python counts as the integer 1 or
    0, with 0 <= answer_index < len(options).  The record holds the
    question and the options of that entry as texts without surrounding
    whitespace, the question possibly empty, and the answer index of the
    entry unchanged.  The records returned are the cleaned forms of the
    passing entries, in their order, the first five of them. *)
Theorem normalize_quiz_records :
  forall (RT : Runtime) (quiz : pyval) (cleaned : list pyval),
    normalize_quiz quiz = Ok cleaned ->
    exists (top : dict) (entries : list dict),
      quiz = PDict top
      /\ py_iter (match dict_lookup top (lit "questions") with
                  | Some questions => questions
                  | None => PList []
                  end)
         = Ok (map PDict entries)
      /\ cleaned = firstn 5 (map entry_cleaned (filter entry_validb entries))
      /\ (forall d, entry_validb d = true <-> entry_valid d)
      /\ forall r : pyval,
           In r cleaned ->
           exists (d : dict) (question : pystr) (options : list pyval)
                  (answer_index : pyval) (a : Z),
             In d entries
             /\ dict_lookup d (lit "question") = Some (PStr question)
             /\ dict_lookup d (lit "options") = Some (PList options)
             /\ dict_lookup d (lit "answer_index") = Some answer_index
             /\ (3 <= len options <= 5)%Z
             /\ (answer_index = PInt a
                 \/ (answer_index = PBool true /\ a = 1%Z)
                 \/ (answer_index = PBool false /\ a = 0%Z))
             /\ (0 <= a < len options)%Z
             /\ r = PDict
                      [ (lit "question", PStr (strip question));
                        (lit "options",
                          PList (map (fun o => PStr (strip (py_str o)))
                                   options));
                        (lit "answer_index", answer_index) ]
             /\ trimmed (strip question)
             /\ Forall (fun o => trimmed (strip (py_str o))) options.
Proof.
  intros RT quiz cleaned H.
  destruct (normalize_quiz_returns _ H) as (top & entries & -> & Hiter & ->).
  exists top, entries.
  split; [reflexivity|split; [exact Hiter|split; [reflexivity|split]]].
  - intros d. apply entry_validb_spec.
  - intros r Hr. apply firstn_In_incl in Hr. apply in_map_iff in Hr.
    destruct Hr as (d & <- & Hd). apply filter_In in Hd.
    destruct Hd as [Hin Hv].
    destruct (entry_cleaned_valid d Hv)
      as (question & options & answer_index & a & Hq & Ho & Ha & Hlen
          & Hint & Hrange & Hrec).
    exists d, question, options, answer_index, a.
    repeat split; try assumption; try lia.
    + apply trimmed_strip.
    + apply trimmed_strip.
    + apply Forall_forall. intros o _. apply trimmed_strip.
Qed.

(** The blank question and the boolean answer index are kept, the entry
    with an answer index out of range is dropped. *)
Lemma normalize_quiz_records_witness :
  exists (top : dict) (entries : list dict),
    quiz_of [blank_entry; sum_entry_out_of_range; true_index_entry]
    = PDict top
    /\ py_iter (match dict_lookup top (lit "questions") with
                | Some questions => questions
                | None => PList []
                end)
       = Ok (map PDict entries)
    /\ [blank_entry_cleaned; true_index_entry]
       = firstn 5 (map (entry_cleaned (RT := example_runtime))
                     (filter entry_validb entries)).
Proof.
  destruct (@normalize_quiz_records example_runtime
              (quiz_of [blank_entry; sum_entry_out_of_range;
                        true_index_entry])
              [blank_entry_cleaned; true_index_entry] eq_refl)
    as (top & entries & Htop & Hiter & Hc & _).
  exists top, entries. now repeat split.
Defined.

(* ================================================================== *)
(** * The claims about the parser *)
(* ================================================================== *)

(** The parser returns on every text: both [try] bodies are guarded and
    the fallback is a value. *)
Lemma parse_quiz_json_returns (text : pystr) :
  exists parsed, parse_quiz_json text = Ok parsed.
Proof.
  unfold parse_quiz_json.
  destruct (try_questions text) as [[p|]|e]; cbn [except_pass bind];
    try (now eexists).
  all: destruct (_extract_first_json_object text) as [[|c block]|];
    try (now eexists).
  all: destruct (try_questions (c :: block)) as [[p|]|e'];
    cbn [except_pass bind]; now eexists.
Qed.

(** A direct parse that yields an object with a [questions] key is the
    answer. *)
Lemma parse_quiz_json_direct (text : pystr) (d : dict) (v : pyval) :
  Json.loads text = Ok (PDict d) ->
  dict_lookup d (lit "questions") = Some v ->
  parse_quiz_json text = Ok (PDict d).
Proof.
  intros Hl Hq. unfold parse_quiz_json, try_questions.
  rewrite Hl. cbn [bind py_in]. now rewrite Hq.
Qed.

(** When the direct parse fails, the extracted block decides. *)
Lemma parse_quiz_json_fallback (text : pystr) (e : exn) :
  Json.loads text = Raise e ->
  parse_quiz_json text
  = match _extract_first_json_object text with
    | Some ((_ :: _) as block) =>
        match try_questions block with
        | Ok (Some parsed) => Ok parsed
        | _ => Ok empty_quiz
        end
    | _ => Ok empty_quiz
    end.
Proof.
  intros Hl. unfold parse_quiz_json, try_questions at 1.
  rewrite Hl. cbn [bind except_pass].
  destruct (_extract_first_json_object text) as [[|c block]|];
    try reflexivity.
  now destruct (try_questions (c :: block)) as [[p|]|e'].
Qed.

(** C3.  The parser on the text [["questions"]]: the direct parse yields a
    list, the membership test ["questions" in parsed] holds for it, and
    the list is returned although it has no [questions] key; the
    normalizer then fails on it. *)
Theorem parse_quiz_json_accepts_list :
  Json.loads questions_array_text = Ok (PList [PStr (lit "questions")])
  /\ parse_quiz_json questions_array_text
     = Ok (PList [PStr (lit "questions")])
  /\ forall RT : Runtime,
       normalize_quiz (PList [PStr (lit "questions")]) = Raise AttributeError.
Proof.
  split; [|split].
  - vm_compute. reflexivity.
  - vm_compute. reflexivity.
  - intros RT. reflexivity.
Qed.

(** C7.  Parsing and then normalizing the model answer of the
    specification yields exactly one question record, and its answer
    index is 1. *)
Theorem parse_then_normalize_sure_text :
  forall RT : Runtime,
    (parsed <- parse_quiz_json sure_text ;; normalize_quiz parsed)
    = Ok [sum_entry]
    /\ py_getitem sum_entry (PStr (lit "answer_index")) = Ok (PInt 1).
Proof.
  intros RT. split; vm_compute; reflexivity.
Qed.

(** On that text the direct parse fails and the extractor finds the
    object. *)
Example sure_text_is_extracted :
  Json.loads sure_text = Raise ValueError
  /\ _extract_first_json_object sure_text
     = Some (firstn 76 (skipn 6 sure_text))
  /\ parse_quiz_json sure_text = Ok (quiz_of [sum_entry]).
Proof. repeat split; vm_compute; reflexivity. Qed.

(** An object with braces inside a quoted string is extracted whole. *)
Example braces_in_string_extracted :
  _extract_first_json_object braces_in_string_text
  = Some braces_in_string_object.
Proof. vm_compute. reflexivity. Qed.

(** A text whose only opening brace is never closed, and a text without
    any brace. *)
Example unbalanced_or_absent_brace :
  _extract_first_json_object (lit "{ unbalanced") = None
  /\ _extract_first_json_object (lit "no brace here") = None.
Proof. split; vm_compute; reflexivity. Qed.

(* ================================================================== *)
(** * The claim about the completion client *)
(* ================================================================== *)

(** C8.  The completion operation returns a text in every case.  Without
    a credential it returns the credential-missing message and sends
    nothing.  With a credential it sends exactly one request; a failure of
    the call, or a response without choices, is caught and returned as an
    error text carrying the diagnostic; otherwise the content of the first
    choice is returned. *)
Theorem generate_with_groq_never_raises :
  forall (env : option pystr) (provider : request -> reply)
         (prompt : pystr) (sent : list request),
    let key := api_key_of_env env in
    let run := generate_with_groq key provider prompt sent in
    (exists text, fst run = Returned text)
    /\ api_key_of_env None = []
    /\ (key = [] -> run = (Returned msg_missing_key, sent))
    /\ (key <> [] ->
        snd run = sent ++ [completion_request prompt]
        /\ (forall e, provider (completion_request prompt) = Failure e ->
                      fst run
                      = Returned (0x274C%N :: lit " API error: " ++ e))
        /\ (provider (completion_request prompt) = Response [] ->
            fst run
            = Returned (0x274C%N :: lit " API error: "
                        ++ lit "list index out of range"))
        /\ (forall content others,
               provider (completion_request prompt)
               = Response (content :: others) ->
               fst run = Returned content)).
Proof.
  intros env provider prompt sent. cbv zeta.
  unfold generate_with_groq, call_provider.
  destruct (api_key_of_env env) as [|c key].
  - repeat split; try (now eexists); try congruence.
  - split; [|split; [reflexivity|split; [discriminate|intros _]]].
    + destruct (provider (completion_request prompt)) as [[|content others]|e];
        cbn; now eexists.
    + destruct (provider (completion_request prompt)) as [[|content others]|e];
        repeat split; cbn; congruence.
Qed.

Lemma generate_with_groq_never_raises_witness :
  generate_with_groq (api_key_of_env (Some (lit "  ")))
    (fun _ => Response [lit "hello"]) (lit "prompt") []
  = (Returned msg_missing_key, [])
  /\ fst (generate_with_groq (api_key_of_env (Some (lit " gsk_1 ")))
            (fun _ => Failure (lit "Connection error.")) (lit "prompt") [])
     = Returned (0x274C%N :: lit " API error: Connection error.").
Proof.
  split.
  - apply (generate_with_groq_never_raises (Some (lit "  "))
             (fun _ => Response [lit "hello"]) (lit "prompt") []).
    reflexivity.
  - apply (generate_with_groq_never_raises (Some (lit " gsk_1 "))
             (fun _ => Failure (lit "Connection error.")) (lit "prompt") []).
    + discriminate.
    + reflexivity.
Defined.

(* ================================================================== *)
(** * Further properties: quiz normalizer *)
(* ================================================================== *)

Section NormalizerMore.

Context {RT : Runtime}.

Lemma lstrip_fixed (s : pystr) :
  (forall c rest, s = c :: rest -> isspace c = false) -> lstrip s = s.
Proof.
  destruct s as [|c s]; [reflexivity|]. intros H. cbn [lstrip].
  now rewrite (H c s eq_refl).
Qed.

(** Stripping a text without surrounding whitespace changes nothing. *)
Lemma strip_trimmed (s : pystr) : trimmed s -> strip s = s.
Proof.
  intros [Hhead Hlast]. unfold strip, rstrip.
  rewrite (lstrip_fixed Hhead).
  rewrite lstrip_fixed; [apply rev_involutive|].
  intros c rest E. apply (Hlast c (rev rest)).
  rewrite <- (rev_involutive s), E. reflexivity.
Qed.

(** A Quiz Question record passes the checks again and is kept
    unchanged. *)
Lemma normalize_step_quiz_question (cleaned : list pyval) (r : pyval) :
  quiz_question r -> normalize_step cleaned r = Ok (cleaned ++ [r]).
Proof.
  intros (question & options & answer_index & a & -> & Hq & Hopts & Hlen
          & Hint & Ha & Hr).
  unfold normalize_step. cbn [py_get bind].
  change (dict_lookup _ (lit "question")) with (Some (PStr question)).
  change (dict_lookup _ (lit "options")) with (Some (PList (map PStr options))).
  change (dict_lookup _ (lit "answer_index")) with (Some answer_index).
  assert (Hok : index_ok (map PStr options) answer_index = true).
  { apply index_ok_spec. unfold len in *. rewrite length_map.
    split; [lia|]. exists a. split; [exact Ha|lia]. }
  cbv beta iota delta [bind]. rewrite Hok. unfold cleaned_entry. rewrite (strip_trimmed Hq).
  assert (Hmap : map (fun o => PStr (strip (py_str o))) (map PStr options)
                 = map PStr options).
  { clear -Hopts. induction Hopts as [|o options Ho _ IH]; [reflexivity|].
    cbn [map py_str]. now rewrite (strip_trimmed Ho), IH. }
  now rewrite Hmap.
Qed.

Lemma normalize_loop_quiz_questions (rs cleaned : list pyval) :
  Forall quiz_question rs ->
  normalize_loop cleaned rs = Ok (cleaned ++ rs).
Proof.
  intros Hall. revert cleaned.
  induction Hall as [|r rs Hr _ IH]; intros cleaned.
  - cbn. now rewrite app_nil_r.
  - cbn [normalize_loop]. rewrite (normalize_step_quiz_question _ Hr).
    cbn [bind]. rewrite IH, <- app_assoc. reflexivity.
Qed.

(** Every list splits at its first element that is not an object. *)
Lemma split_at_non_object (qs : list pyval) :
  (exists entries, qs = map PDict entries)
  \/ exists before q after,
       qs = map PDict before ++ q :: after /\ forall d, q <> PDict d.
Proof.
  induction qs as [|q qs [[entries ->]|(before & q' & after & -> & Hq')]].
  - left. now exists [].
  - destruct q as [| | | | | |items];
      try (right; exists []; eexists; eexists;
           split; [reflexivity|intros d; discriminate]).
    left. now exists (items :: entries).
  - destruct q as [| | | | | |items];
      try (right; exists []; eexists; eexists;
           split; [reflexivity|intros d; discriminate]).
    right. exists (items :: before), q', after. now split.
Qed.

End NormalizerMore.

(** X1.  On an object whose [questions] value is a list of objects the
    normalizer returns the entries that pass its checks, in their order,
    each cleaned, and only the first five of them.  An entry passes
    exactly when its question is a string, its options are a list of
    three to five elements and its answer index is an integer that points
    into the options. *)
Theorem normalize_quiz_filters_objects :
  forall (RT : Runtime) (d : dict) (entries : list dict),
    dict_lookup d (lit "questions") = Some (PList (map PDict entries)) ->
    normalize_quiz (PDict d)
    = Ok (firstn 5 (map entry_cleaned (filter entry_validb entries)))
    /\ forall e : dict, entry_validb e = true <-> entry_valid e.
Proof.
  intros RT d entries H. split.
  - now apply normalize_quiz_on_objects.
  - intros e. apply entry_validb_spec.
Qed.

Lemma normalize_quiz_filters_objects_witness :
  normalize_quiz (RT := example_runtime)
    (quiz_of [sum_entry_out_of_range; blank_entry; sum_entry])
  = Ok [blank_entry_cleaned; sum_entry].
Proof.
  apply (@normalize_quiz_filters_objects example_runtime
           [(lit "questions",
             PList [sum_entry_out_of_range; blank_entry; sum_entry])]
           (map items_of [sum_entry_out_of_range; blank_entry; sum_entry])).
  reflexivity.
Defined.

(** X2.  When the normalizer raises.  A structure that is not an object
    raises [AttributeError]; a [questions] value that is [None], a
    boolean or a number raises [TypeError]; a [questions] list raises
    [AttributeError] as soon as one element is not an object, and returns
    otherwise. *)
Theorem normalize_quiz_errors :
  forall RT : Runtime,
    (forall quiz, (forall d, quiz <> PDict d) ->
                  normalize_quiz quiz = Raise AttributeError)
    /\ (forall d v,
           dict_lookup d (lit "questions") = Some v ->
           isinstance_list v = false -> isinstance_str v = false ->
           (forall items, v <> PDict items) ->
           normalize_quiz (PDict d) = Raise TypeError)
    /\ (forall d qs,
           dict_lookup d (lit "questions") = Some (PList qs) ->
           (exists q, In q qs /\ forall items, q <> PDict items) ->
           normalize_quiz (PDict d) = Raise AttributeError)
    /\ (forall d qs,
           dict_lookup d (lit "questions") = Some (PList qs) ->
           (forall q, In q qs -> exists items, q = PDict items) ->
           exists cleaned, normalize_quiz (PDict d) = Ok cleaned).
Proof.
  intros RT. split; [|split; [|split]].
  - intros quiz Hq. destruct quiz as [| | | | | |items]; try reflexivity.
    now destruct (Hq items).
  - intros d v Hv Hl Hs Hd. unfold normalize_quiz. cbn [py_get bind].
    rewrite Hv. destruct v as [| | | | | |items];
      try discriminate; try reflexivity.
    now destruct (Hd items).
  - intros d qs Hv (q & Hin & Hq). unfold normalize_quiz.
    cbn [py_get bind]. rewrite Hv. cbn [py_iter bind].
    destruct (split_at_non_object qs)
      as [[entries ->]|(before & q' & after & -> & Hq')].
    + apply in_map_iff in Hin. destruct Hin as (e & <- & _).
      now destruct (Hq e).
    + now rewrite (normalize_loop_non_object before after [] Hq').
  - intros d qs Hv Hall.
    destruct (split_at_non_object qs)
      as [[entries ->]|(before & q' & after & -> & Hq')].
    + rewrite (normalize_quiz_on_objects d entries Hv). now eexists.
    + destruct (Hall q') as [items ->].
      * apply in_or_app. right. now left.
      * now destruct (Hq' items).
Qed.

Lemma normalize_quiz_errors_witness :
  normalize_quiz (RT := example_runtime) (PStr (lit "questions"))
  = Raise AttributeError
  /\ normalize_quiz (RT := example_runtime) (quiz_of [sum_entry; PNone])
     = Raise AttributeError
  /\ normalize_quiz (RT := example_runtime)
       (PDict [(lit "questions", PInt 3)])
     = Raise TypeError.
Proof.
  destruct (@normalize_quiz_errors example_runtime) as (H1 & H2 & H3 & _).
  split; [|split].
  - apply H1. discriminate.
  - apply (H3 _ [sum_entry; PNone]); [reflexivity|].
    exists PNone. split; [cbn; tauto|discriminate].
  - apply (H2 _ (PInt 3)); try reflexivity. discriminate.
Defined.

(** X3.  Normalizing is idempotent: the list the normalizer returns,
    put back under a [questions] key, is returned unchanged. *)
Theorem normalize_quiz_idempotent :
  forall (RT : Runtime) (quiz : pyval) (cleaned : list pyval),
    normalize_quiz quiz = Ok cleaned ->
    normalize_quiz (quiz_of cleaned) = Ok cleaned.
Proof.
  intros RT quiz cleaned H.
  apply normalize_quiz_invariant in H. destruct H as [Hall Hlen].
  unfold normalize_quiz, quiz_of. cbn [py_get bind].
  change (dict_lookup _ (lit "questions")) with (Some (PList cleaned)).
  cbn [py_iter bind]. rewrite (normalize_loop_quiz_questions [] Hall).
  cbn [bind app]. f_equal. apply firstn_all2. lia.
Qed.

Lemma normalize_quiz_idempotent_witness :
  normalize_quiz (RT := example_runtime)
    (quiz_of [blank_entry_cleaned; sum_entry])
  = Ok [blank_entry_cleaned; sum_entry].
Proof.
  apply (@normalize_quiz_idempotent example_runtime
           (quiz_of [sum_entry_out_of_range; blank_entry; sum_entry])).
  reflexivity.
Defined.

(* ================================================================== *)
(** * Further properties: extractor and parser *)
(* ================================================================== *)

Section ExtractorMore.

(** The extractor on a text split at its first opening brace: the answer
    is the shortest prefix of the part from that brace on after which the
    depth is zero. *)
Lemma extract_from_first_brace (pre rest : pystr) :
  ~ In lbrace pre ->
  match _extract_first_json_object (pre ++ lbrace :: rest) with
  | Some s =>
      exists j, (1 <= j <= length rest)%nat
                /\ s = firstn (S j) (lbrace :: rest)
                /\ nth j (lbrace :: rest) 0%N = rbrace
                /\ depth (scan s) = 0%Z
                /\ forall k, (0 < k <= j)%nat ->
                     (1 <= depth (scan (firstn k (lbrace :: rest))))%Z
  | None =>
      forall k, (0 < k <= S (length rest))%nat ->
                (1 <= depth (scan (firstn k (lbrace :: rest))))%Z
  end.
Proof.
  intros Hnot. unfold _extract_first_json_object, str_find.
  destruct (@str_find_from_spec lbrace (pre ++ lbrace :: rest) 0%Z
              ltac:(lia))
    as [[Hnone _]|(pre' & rest' & Htext & Hnot' & Hf)].
  { destruct Hnone. apply in_or_app. right. now left. }
  destruct (first_occurrence_unique _ _ _ _ _ Htext Hnot Hnot')
    as [<- <-].
  rewrite Hf. unfold len.
  destruct (Z.eqb_spec (0 + Z.of_nat (length pre)) (-1)) as [E|_]; [lia|].
  replace (Z.to_nat (0 + Z.of_nat (length pre))) with (length pre) by lia.
  rewrite length_app.
  replace (length pre + length (lbrace :: rest) - length pre)%nat
    with (S (length rest)) by (cbn [length]; lia).
  cbn [seq].
  pose proof (@extract_loop_step (pre ++ lbrace :: rest) (length pre)
                (length pre) (seq (S (length pre)) (length rest)) scan_init)
    as Hstep.
  cbv zeta in Hstep.
  assert (Hc : char_at (pre ++ lbrace :: rest) (length pre) = lbrace)
    by (unfold char_at; apply nth_middle).
  rewrite Hc in Hstep.
  change (extract_loop (pre ++ lbrace :: rest) (length pre)
            (length pre :: seq (S (length pre)) (length rest)) 0 false false)
    with (extract_loop (pre ++ lbrace :: rest) (length pre)
            (length pre :: seq (S (length pre)) (length rest))
            (depth scan_init) (in_string scan_init) (escaped scan_init)).
  rewrite Hstep. clear Hstep.
  change (negb (in_string scan_init) && (lbrace =? rbrace)%N
          && (depth (scan_char scan_init lbrace) =? 0)%Z) with false.
  cbv iota.
  change (scan_char scan_init lbrace) with (scan (firstn 1 (lbrace :: rest))).
  replace (S (length pre)) with (length pre + 1)%nat by lia.
  pose proof (@extract_loop_inv pre (lbrace :: rest) (length rest) 1) as Hinv.
  cbv zeta in Hinv.
  specialize (Hinv ltac:(cbn [length]; lia)).
  assert (Hone : forall k', (0 < k' <= 1)%nat ->
            (1 <= depth (scan (firstn k' (lbrace :: rest))))%Z).
  { intros k' Hk'. replace k' with 1%nat by lia. cbn. lia. }
  specialize (Hinv Hone ltac:(lia)).
  destruct (extract_loop (pre ++ lbrace :: rest) (length pre)
              (seq (length pre + 1) (length rest)) _ _ _) as [s|].
  - destruct Hinv as (j & Hj & Hs & Hch & Hz & Hall).
    exists j. cbn [length] in Hj. repeat split; try assumption; lia.
  - cbn [length] in Hinv. exact Hinv.
Qed.

Lemma firstn_app_exact {A : Type} (b post : list A) :
  firstn (length b) (b ++ post) = b.
Proof.
  rewrite firstn_app, firstn_all, Nat.sub_diag. cbn [firstn].
  apply app_nil_r.
Qed.

Lemma firstn_app_short {A : Type} (k : nat) (b post : list A) :
  (k <= length b)%nat -> firstn k (b ++ post) = firstn k b.
Proof.
  intros Hk. rewrite firstn_app.
  replace (k - length b)%nat with 0%nat by lia. cbn [firstn].
  apply app_nil_r.
Qed.

(** A balanced object is found in any text that has no opening brace
    before it. *)
Lemma extract_embedded (pre b post : pystr) :
  ~ In lbrace pre -> balanced_object b ->
  _extract_first_json_object (pre ++ b ++ post) = Some b.
Proof.
  intros Hnot ((body & Hb) & Hz & Hmin).
  pose proof (@extract_from_first_brace pre ((body ++ [rbrace]) ++ post)
                Hnot) as H.
  assert (Hrest : lbrace :: (body ++ [rbrace]) ++ post = b ++ post)
    by now rewrite Hb.
  rewrite Hrest in H.
  assert (Hlen : length b = S (length body + 1)).
  { rewrite Hb. cbn [length]. rewrite length_app. reflexivity. }
  destruct (_extract_first_json_object (pre ++ b ++ post)) as [s|].
  - destruct H as (j & Hj & Hs & _ & Hsz & Hall). f_equal.
    destruct (Nat.lt_trichotomy (S j) (length b)) as [Hlt|[Heq|Hgt]].
    + exfalso. apply (Hmin (S j)); [lia|].
      rewrite <- (@firstn_app_short _ (S j) b post) by lia.
      now rewrite <- Hs.
    + rewrite Hs, Heq. apply firstn_app_exact.
    + exfalso. specialize (Hall (length b) ltac:(lia)).
      rewrite firstn_app_exact in Hall. lia.
  - exfalso. specialize (H (length b)).
    rewrite firstn_app_exact in H.
    rewrite !length_app in H. cbn [length] in H.
    specialize (H ltac:(lia)). lia.
Qed.

(** What the extractor returns is a balanced object of the text, with no
    opening brace before it. *)
Lemma extract_some_balanced (text b : pystr) :
  _extract_first_json_object text = Some b ->
  exists pre post,
    text = pre ++ b ++ post /\ ~ In lbrace pre /\ balanced_object b.
Proof.
  intros H.
  destruct (@str_find_from_spec lbrace text 0%Z ltac:(lia))
    as [[Hnone Hf]|(pre & rest & -> & Hnot & _)].
  { unfold _extract_first_json_object, str_find in H.
    rewrite Hf in H. discriminate. }
  pose proof (@extract_from_first_brace pre rest Hnot) as Hx.
  rewrite H in Hx. destruct Hx as (j & Hj & Hs & Hch & Hz & Hall).
  exists pre, (skipn (S j) (lbrace :: rest)).
  split; [|split; [exact Hnot|]].
  - rewrite Hs. now rewrite firstn_skipn.
  - assert (Hlen : length b = S j).
    { rewrite Hs, length_firstn. cbn [length]. lia. }
    split; [|split; [exact Hz|]].
    + exists (firstn (j - 1) rest). rewrite Hs.
      rewrite firstn_succ_nth by (cbn [length]; lia). rewrite Hch.
      destruct j as [|j]; [lia|]. cbn [firstn app].
      now replace (S j - 1)%nat with j by lia.
    + intros k Hk. rewrite Hs, firstn_firstn.
      replace (Nat.min k (S j)) with k by lia.
      specialize (Hall k ltac:(lia)). lia.
Qed.

Lemma extract_no_brace (text : pystr) :
  ~ In lbrace text -> _extract_first_json_object text = None.
Proof.
  intros Hnot. unfold _extract_first_json_object, str_find.
  destruct (@str_find_from_spec lbrace text 0%Z ltac:(lia))
    as [[_ Hf]|(pre & rest & -> & _ & _)].
  - now rewrite Hf.
  - destruct Hnot. apply in_or_app. right. now left.
Qed.

End ExtractorMore.

(** X4.  A balanced object (from an opening brace to the closing brace
    that returns the depth to zero, braces in string literals not
    counted) is extracted whole from any surrounding text, provided no
    opening brace stands before it; what follows it has no influence. *)
Theorem extract_object_from_prose :
  forall pre b post : pystr,
    ~ In lbrace pre -> balanced_object b ->
    _extract_first_json_object (pre ++ b ++ post) = Some b.
Proof. intros pre b post. apply extract_embedded. Qed.

Lemma balanced_braces_in_string : balanced_object braces_in_string_object.
Proof.
  split; [|split].
  - now exists (firstn 12 (skipn 1 braces_in_string_object)).
  - reflexivity.
  - intros k Hk. cbn [length] in Hk.
    assert (Hall : forallb (fun k => negb (depth (scan (firstn k
                      braces_in_string_object)) =? 0)%Z) (seq 1 13) = true)
      by reflexivity.
    rewrite forallb_forall in Hall.
    specialize (Hall k ltac:(apply in_seq; cbn in Hk |- *; lia)).
    apply negb_true_iff, Z.eqb_neq in Hall. exact Hall.
Defined.

Lemma extract_object_from_prose_witness :
  _extract_first_json_object
    (lit "Here: " ++ braces_in_string_object ++ lit " done")
  = Some braces_in_string_object.
Proof.
  apply extract_object_from_prose.
  - cbn. intros H. repeat (destruct H as [H|H]; [discriminate|]). exact H.
  - exact balanced_braces_in_string.
Defined.

(** X5.  Extraction is idempotent: a block the extractor returns is never
    empty, is a contiguous part of the text, and is returned again when
    the extractor is run on the block itself. *)
Theorem extract_idempotent :
  forall text block : pystr,
    _extract_first_json_object text = Some block ->
    _extract_first_json_object block = Some block
    /\ block <> []
    /\ exists pre post, text = pre ++ block ++ post.
Proof.
  intros text block H.
  destruct (extract_some_balanced _ H) as (pre & post & Ht & _ & Hb).
  split; [|split].
  - pose proof (@extract_embedded [] block [] (fun F => F) Hb) as E.
    cbn [app] in E. now rewrite app_nil_r in E.
  - destruct Hb as ((body & ->) & _). discriminate.
  - now exists pre, post.
Qed.

Lemma extract_idempotent_witness :
  _extract_first_json_object (firstn 76 (skipn 6 sure_text))
  = Some (firstn 76 (skipn 6 sure_text)).
Proof.
  apply (@extract_idempotent sure_text). reflexivity.
Defined.

Section ParserMore.

Lemma balanced_objectb_sound (s : pystr) :
  balanced_objectb s = true -> balanced_object s.
Proof.
  destruct s as [|c rest]; [discriminate|]. unfold balanced_objectb.
  intros H. repeat (apply andb_prop in H; destruct H as [H ?]).
  apply N.eqb_eq in H. subst c.
  match goal with Hl : (last rest 0 =? rbrace)%N = true |- _ =>
    apply N.eqb_eq in Hl; rename Hl into Hlast end.
  match goal with Hn : negb _ = true |- _ =>
    apply negb_true_iff, Nat.eqb_neq in Hn; rename Hn into Hne end.
  match goal with Hd : (depth _ =? 0)%Z = true |- _ =>
    apply Z.eqb_eq in Hd; rename Hd into Hz end.
  match goal with Hf : forallb _ _ = true |- _ =>
    rewrite forallb_forall in Hf; rename Hf into Hall end.
  split; [|split; [exact Hz|]].
  - exists (removelast rest). f_equal. rewrite <- Hlast.
    apply app_removelast_last. now destruct rest.
  - intros k Hk. cbn [length] in Hk.
    specialize (Hall k ltac:(apply in_seq; lia)).
    now apply negb_true_iff, Z.eqb_neq in Hall.
Qed.

Lemma try_questions_some (text : pystr) (parsed : pyval) :
  try_questions text = Ok (Some parsed) ->
  Json.loads text = Ok parsed /\ py_in (lit "questions") parsed = Ok true.
Proof.
  unfold try_questions.
  destruct (Json.loads text) as [v|e]; cbn [bind]; [|discriminate].
  destruct (py_in (lit "questions") v) as [[|]|e] eqn:Hin; cbn [bind];
    try discriminate.
  intros E. injection E as <-. now split.
Qed.

Lemma try_questions_accept (text : pystr) (parsed : pyval) :
  Json.loads text = Ok parsed ->
  py_in (lit "questions") parsed = Ok true ->
  try_questions text = Ok (Some parsed).
Proof.
  intros Hl Hin. unfold try_questions. rewrite Hl. cbn [bind].
  now rewrite Hin.
Qed.

Lemma try_questions_reject (text : pystr) :
  (forall v, Json.loads text = Ok v ->
             py_in (lit "questions") v <> Ok true) ->
  except_pass (try_questions text) = Ok None.
Proof.
  intros H. unfold try_questions.
  destruct (Json.loads text) as [v|e]; cbn [bind]; [|reflexivity].
  specialize (H v eq_refl).
  destruct (py_in (lit "questions") v) as [[|]|e]; cbn [bind];
    try reflexivity.
  now destruct H.
Qed.

(** Where the answer of the parser comes from. *)
Lemma parse_quiz_json_cases (text : pystr) :
  exists v,
    parse_quiz_json text = Ok v
    /\ py_in (lit "questions") v = Ok true
    /\ (Json.loads text = Ok v
        \/ (exists block,
               _extract_first_json_object text = Some block
               /\ Json.loads block = Ok v)
        \/ v = empty_quiz).
Proof.
  unfold parse_quiz_json.
  destruct (try_questions text) as [[p|]|e] eqn:Hdirect;
    cbn [except_pass bind].
  - apply try_questions_some in Hdirect. destruct Hdirect as [Hl Hin].
    exists p. auto.
  - destruct (_extract_first_json_object text) as [[|c block]|] eqn:Hx;
      try (exists empty_quiz; now auto).
    destruct (try_questions (c :: block)) as [[p|]|e] eqn:Hblock;
      cbn [except_pass bind]; try (exists empty_quiz; now auto).
    apply try_questions_some in Hblock. destruct Hblock as [Hl Hin].
    exists p. split; [reflexivity|split; [exact Hin|]].
    right. left. now exists (c :: block).
  - destruct (_extract_first_json_object text) as [[|c block]|] eqn:Hx;
      try (exists empty_quiz; now auto).
    destruct (try_questions (c :: block)) as [[p|]|e'] eqn:Hblock;
      cbn [except_pass bind]; try (exists empty_quiz; now auto).
    apply try_questions_some in Hblock. destruct Hblock as [Hl Hin].
    exists p. split; [reflexivity|split; [exact Hin|]].
    right. left. now exists (c :: block).
Qed.

(** A text whose direct parse is not accepted and that holds no block
    gives the empty quiz. *)
Lemma parse_quiz_json_nothing (text : pystr) :
  (forall v, Json.loads text = Ok v ->
             py_in (lit "questions") v <> Ok true) ->
  _extract_first_json_object text = None ->
  parse_quiz_json text = Ok empty_quiz.
Proof.
  intros Hrej Hx. unfold parse_quiz_json.
  rewrite (try_questions_reject _ Hrej). cbn [bind]. now rewrite Hx.
Qed.

(** A text whose direct parse is not accepted and that embeds a block
    which parses to an object with a [questions] key gives that
    object. *)
Lemma parse_quiz_json_block (text block : pystr) (d : dict) (v : pyval) :
  (forall w, Json.loads text = Ok w ->
             py_in (lit "questions") w <> Ok true) ->
  _extract_first_json_object text = Some block ->
  Json.loads block = Ok (PDict d) ->
  dict_lookup d (lit "questions") = Some v ->
  parse_quiz_json text = Ok (PDict d).
Proof.
  intros Hrej Hx Hl Hq. unfold parse_quiz_json.
  rewrite (try_questions_reject _ Hrej). cbn [bind]. rewrite Hx.
  destruct block as [|c block].
  { vm_compute in Hl. discriminate. }
  rewrite (try_questions_accept _ Hl); [reflexivity|].
  cbn [py_in]. now rewrite Hq.
Qed.

End ParserMore.

(** X6.  The parser returns on every text, and what it returns passes the
    membership test ["questions" in parsed]: it is the value of the whole
    text, or the value of the block the extractor finds in it, or the
    empty quiz [{"questions": []}]. *)
Theorem parse_quiz_json_provenance :
  forall text : pystr,
    exists v,
      parse_quiz_json text = Ok v
      /\ py_in (lit "questions") v = Ok true
      /\ (Json.loads text = Ok v
          \/ (exists block,
                 _extract_first_json_object text = Some block
                 /\ Json.loads block = Ok v)
          \/ v = empty_quiz).
Proof. exact parse_quiz_json_cases. Qed.

(** X7.  A quiz object embedded in prose is recovered: when a balanced
    block with no opening brace before it parses to an object with a
    [questions] key, and the text as a whole is not accepted as JSON, the
    parser returns that object, whatever follows the block. *)
Theorem parse_quiz_json_embedded :
  forall (pre block post : pystr) (d : dict) (v : pyval),
    ~ In lbrace pre ->
    balanced_object block ->
    (forall w, Json.loads (pre ++ block ++ post) = Ok w ->
               py_in (lit "questions") w <> Ok true) ->
    Json.loads block = Ok (PDict d) ->
    dict_lookup d (lit "questions") = Some v ->
    parse_quiz_json (pre ++ block ++ post) = Ok (PDict d).
Proof.
  intros pre block post d v Hnot Hb Hrej Hl Hq.
  apply parse_quiz_json_block with block v; try assumption.
  now apply extract_embedded.
Qed.

Lemma parse_quiz_json_embedded_witness :
  parse_quiz_json
    (lit "Sure! " ++ firstn 76 (skipn 6 sure_text) ++ lit " Hope that helps!")
  = Ok (PDict [(lit "questions", PList [sum_entry])]).
Proof.
  apply (@parse_quiz_json_embedded (lit "Sure! ")
           (firstn 76 (skipn 6 sure_text)) (lit " Hope that helps!")
           [(lit "questions", PList [sum_entry])] (PList [sum_entry])).
  - cbn. intros H. repeat (destruct H as [H|H]; [discriminate|]). exact H.
  - apply balanced_objectb_sound. vm_compute. reflexivity.
  - intros w Hw. vm_compute in Hw. discriminate.
  - vm_compute. reflexivity.
  - reflexivity.
Defined.

(** X8.  A reply without any opening brace, whose whole text is not
    accepted as JSON, gives the empty quiz, and the normalizer returns
    the empty list for it. *)
Theorem parse_quiz_json_prose_only :
  forall (RT : Runtime) (text : pystr),
    ~ In lbrace text ->
    (forall v, Json.loads text = Ok v ->
               py_in (lit "questions") v <> Ok true) ->
    parse_quiz_json text = Ok empty_quiz
    /\ normalize_quiz empty_quiz = Ok [].
Proof.
  intros RT text Hnot Hrej. split; [|reflexivity].
  apply parse_quiz_json_nothing; [exact Hrej|].
  now apply extract_no_brace.
Qed.

Lemma parse_quiz_json_prose_only_witness :
  parse_quiz_json (lit "I cannot write a quiz.") = Ok empty_quiz.
Proof.
  apply (@parse_quiz_json_prose_only example_runtime
           (lit "I cannot write a quiz.")).
  - cbn. intros H. repeat (destruct H as [H|H]; [discriminate|]). exact H.
  - intros v Hv. vm_compute in Hv. discriminate.
Defined.

(* ================================================================== *)
(** * Further properties: quiz scorer *)
(* ================================================================== *)

Section ScorerMore.

Context {RT : Runtime}.

Lemma Forall2_represents_length (quiz_data : list pyval)
    (qs : list scorable) :
  Forall2 represents quiz_data qs -> len qs = len quiz_data.
Proof.
  intros H. unfold len. f_equal. symmetry.
  now apply Forall2_length with (1 := H).
Qed.

(** Every answer is correct exactly when the count of correct answers
    is the number of questions. *)
Lemma correct_count_all (selections : list (option Z)) (qs : list scorable)
    (i : nat) :
  correct_count selections i qs = len qs
  <-> forall k s, nth_error qs k = Some s ->
                  verdict (selection_at selections (i + k)) s = true.
Proof.
  revert i. induction qs as [|s qs IH]; intros i.
  - cbn. split; [intros _ [|k] s'; discriminate|reflexivity].
  - cbn [correct_count]. unfold len in *. cbn [length].
    pose proof (correct_count_bounds selections qs (S i)) as Hb.
    unfold len in Hb. split.
    + intros H [|k] s' Hs'; cbn in Hs'.
      * injection Hs' as <-. rewrite Nat.add_0_r.
        destruct (verdict (selection_at selections i) s); [reflexivity|lia].
      * replace (i + S k)%nat with (S i + k)%nat by lia.
        apply (proj1 (IH (S i))); [|exact Hs'].
        destruct (verdict (selection_at selections i) s); lia.
    + intros H. rewrite (proj2 (IH (S i))).
      * specialize (H 0%nat s eq_refl). rewrite Nat.add_0_r in H.
        rewrite H. lia.
      * intros k s' Hs'. specialize (H (S k) s' Hs').
        now replace (i + S k)%nat with (S i + k)%nat in H by lia.
Qed.

Lemma correct_count_none (selections : list (option Z))
    (qs : list scorable) (i : nat) :
  (forall k, selection_at selections k = None) ->
  correct_count selections i qs = 0%Z.
Proof.
  intros H. revert i. induction qs as [|s qs IH]; intros i; cbn;
    [reflexivity|].
  now rewrite H, IH.
Qed.

(** The loop reads the selections only at the positions of the quiz. *)
Lemma score_loop_surplus (selections more : list (option Z))
    (quiz_data : list pyval) :
  forall (i : nat) (correct : Z) (details : list pystr),
    (i + length quiz_data <= length selections)%nat ->
    score_loop (selections ++ more) i quiz_data correct details
    = score_loop selections i quiz_data correct details.
Proof.
  induction quiz_data as [|q quiz_data IH]; intros i correct details Hi;
    [reflexivity|].
  cbn [length] in Hi. cbn [score_loop].
  assert (Hq : score_question (selections ++ more) i q
               = score_question selections i q).
  { unfold score_question. rewrite !choice_at_ok. unfold selection_at.
    now rewrite app_nth1 by lia. }
  rewrite Hq.
  destruct (score_question selections i q) as [r|e]; cbn [bind];
    [|reflexivity].
  apply IH. lia.
Qed.

(** The loop through well-formed questions and then one more. *)
Lemma score_loop_then (selections : list (option Z)) (good : list pyval)
    (qs : list scorable) (q : pyval) (rest : list pyval) (e : exn) :
  Forall2 represents good qs ->
  forall (i : nat) (correct : Z) (details : list pystr),
    score_question selections (i + length good) q = Raise e ->
    score_loop selections i (good ++ q :: rest) correct details = Raise e.
Proof.
  induction 1 as [|g s good qs Hg _ IH]; intros i correct details Hq.
  - cbn [app score_loop]. cbn [length] in Hq.
    rewrite Nat.add_0_r in Hq. now rewrite Hq.
  - cbn [app score_loop]. rewrite (score_question_ok selections i Hg).
    cbn [bind fst snd]. apply IH.
    cbn [length] in Hq.
    now replace (S i + length good)%nat with (i + S (length good))%nat by lia.
Qed.

End ScorerMore.

(** X9.  On a well-formed, non-empty quiz the score line reads
    "Score: c / t" with t the number of questions and 0 <= c <= t, for
    every list of selections. *)
Theorem evaluate_answers_score_bounds :
  forall (RT : Runtime) (user_choices : list (option Z))
         (quiz_data : list pyval) (qs : list scorable),
    Forall2 represents quiz_data qs ->
    quiz_data <> [] ->
    exists (correct : Z) (feedback : pystr),
      evaluate_answers user_choices quiz_data
      = Ok (lit "Score: " ++ str_of_int correct ++ lit " / "
            ++ str_of_int (len quiz_data), feedback)
      /\ (0 <= correct <= len quiz_data)%Z.
Proof.
  intros RT user_choices quiz_data qs Hrep Hne.
  rewrite (evaluate_answers_report user_choices Hrep).
  destruct quiz_data as [|q quiz_data]; [congruence|]. cbv zeta.
  eexists _, _. split; [reflexivity|].
  rewrite <- (Forall2_represents_length Hrep).
  apply correct_count_bounds.
Qed.

Lemma evaluate_answers_score_bounds_witness :
  exists (correct : Z) (feedback : pystr),
    evaluate_answers (RT := example_runtime) [Some 1%Z] abc_quiz
    = Ok (lit "Score: " ++ str_of_int correct ++ lit " / "
          ++ str_of_int (len abc_quiz), feedback)
    /\ (0 <= correct <= len abc_quiz)%Z.
Proof.
  apply (@evaluate_answers_score_bounds example_runtime [Some 1%Z] abc_quiz
           [abc_scorable]).
  - repeat constructor. eexists _, (PInt 2).
    repeat split; cbn; try reflexivity; unfold len; cbn; lia.
  - discriminate.
Defined.

(** X10.  On a well-formed, non-empty quiz of any length the feedback
    opens with the mastery message exactly when every position carries
    the selection of the correct index; the score is then t out of t. *)
Theorem evaluate_answers_mastery :
  forall (RT : Runtime) (user_choices : list (option Z))
         (quiz_data : list pyval) (qs : list scorable),
    Forall2 represents quiz_data qs ->
    quiz_data <> [] ->
    exists (correct : Z) (tier : pystr),
      evaluate_answers user_choices quiz_data
      = Ok (lit "Score: " ++ str_of_int correct ++ lit " / "
            ++ str_of_int (len quiz_data),
            tier ++ nl ++ nl ++ join nl (detail_lines user_choices 0 qs))
      /\ (tier = msg_mastery \/ tier = msg_review \/ tier = msg_revisit)
      /\ (tier = msg_mastery
          <-> forall k s, nth_error qs k = Some s ->
                          nth k user_choices None = Some (sc_answer s))
      /\ (tier = msg_mastery <-> correct = len quiz_data).
Proof.
  intros RT user_choices quiz_data qs Hrep Hne.
  rewrite (evaluate_answers_report user_choices Hrep).
  destruct quiz_data as [|q quiz_data]; [congruence|]. cbv zeta.
  eexists _, _. split; [reflexivity|].
  rewrite <- (Forall2_represents_length Hrep).
  assert (Htier : feedback_tier (correct_count user_choices 0 qs) (len qs)
                  = msg_mastery
                  <-> correct_count user_choices 0 qs = len qs).
  { unfold feedback_tier.
    destruct (Z.eqb_spec (correct_count user_choices 0 qs) (len qs)) as [E|E].
    - tauto.
    - destruct (at_least_60_percent _ _); split; try discriminate;
        intros F; now destruct E. }
  split; [|split; [|exact Htier]].
  - unfold feedback_tier.
    destruct (_ =? _)%Z; [tauto|]. destruct (at_least_60_percent _ _); tauto.
  - rewrite Htier, correct_count_all. cbn [Nat.add].
    split; intros H k s Hs; specialize (H k s Hs);
      unfold selection_at, verdict in *.
    + destruct (nth k user_choices None) as [u|]; [|discriminate].
      apply Z.eqb_eq in H. now subst.
    + rewrite H. apply Z.eqb_refl.
Qed.

Lemma evaluate_answers_mastery_witness :
  exists (correct : Z) (tier : pystr),
    evaluate_answers (RT := example_runtime) [Some 2%Z] abc_quiz
    = Ok (lit "Score: " ++ str_of_int correct ++ lit " / "
          ++ str_of_int (len abc_quiz),
          tier ++ nl ++ nl
          ++ join nl (detail_lines (RT := example_runtime) [Some 2%Z] 0
                        [abc_scorable]))
    /\ (tier = msg_mastery \/ tier = msg_review \/ tier = msg_revisit)
    /\ (tier = msg_mastery
        <-> forall k s, nth_error [abc_scorable] k = Some s ->
                        nth k [Some 2%Z] None = Some (sc_answer s))
    /\ (tier = msg_mastery <-> correct = len abc_quiz).
Proof.
  apply (@evaluate_answers_mastery example_runtime [Some 2%Z] abc_quiz
           [abc_scorable]).
  - repeat constructor. eexists _, (PInt 2).
    repeat split; cbn; try reflexivity; unfold len; cbn; lia.
  - discriminate.
Defined.

(** X11.  When no position is answered, a well-formed quiz of one to a
    hundred questions is scored 0 out of t with the revisit message. *)
Theorem evaluate_answers_unanswered :
  forall (RT : Runtime) (user_choices : list (option Z))
         (quiz_data : list pyval) (qs : list scorable),
    Forall2 represents quiz_data qs ->
    quiz_data <> [] ->
    (len quiz_data <= 100)%Z ->
    Forall (fun choice => choice = None) user_choices ->
    evaluate_answers user_choices quiz_data
    = Ok (lit "Score: 0 / " ++ str_of_int (len quiz_data),
          msg_revisit ++ nl ++ nl
          ++ join nl (detail_lines user_choices 0 qs)).
Proof.
  intros RT user_choices quiz_data qs Hrep Hne Hlen Hnone.
  rewrite (evaluate_answers_report user_choices Hrep).
  destruct quiz_data as [|q quiz_data]; [congruence|]. cbv zeta.
  assert (Hsel : forall k, selection_at user_choices k = None).
  { intros k. unfold selection_at.
    destruct (nth_in_or_default k user_choices None) as [Hin|E]; [|exact E].
    rewrite Forall_forall in Hnone. now apply Hnone. }
  rewrite (@correct_count_none user_choices qs 0 Hsel).
  rewrite feedback_tier_exact by (unfold len in *; cbn [length] in *; lia).
  unfold tier_message, score_line.
  assert (Hpos : (0 < len (q :: quiz_data))%Z)
    by (unfold len; cbn [length]; lia).
  destruct (Z.eqb_spec 0 (len (q :: quiz_data))); [lia|].
  destruct (Z.leb_spec (60 * len (q :: quiz_data)) (100 * 0)); [lia|].
  reflexivity.
Qed.

Lemma evaluate_answers_unanswered_witness :
  evaluate_answers (RT := example_runtime) [None; None] abc_quiz
  = Ok (lit "Score: 0 / 1",
        msg_revisit ++ nl ++ nl
        ++ lit "Q1: " ++ msg_incorrect
        ++ lit " | Your answer: No answer | Correct: C").
Proof.
  apply (@evaluate_answers_unanswered example_runtime [None; None] abc_quiz
           [abc_scorable]).
  - repeat constructor. eexists _, (PInt 2).
    repeat split; cbn; try reflexivity; unfold len; cbn; lia.
  - discriminate.
  - unfold len. cbn. lia.
  - repeat constructor.
Defined.

(** X12.  Selections past the last question are never read: with at
    least as many selections as questions, any further selections leave
    the result unchanged, an exception included, whatever the quiz
    holds. *)
Theorem evaluate_answers_surplus_selections :
  forall (RT : Runtime) (user_choices more : list (option Z))
         (quiz_data : list pyval),
    (length quiz_data <= length user_choices)%nat ->
    evaluate_answers (user_choices ++ more) quiz_data
    = evaluate_answers user_choices quiz_data.
Proof.
  intros RT user_choices more quiz_data Hlen. unfold evaluate_answers.
  now rewrite score_loop_surplus by (cbn; lia).
Qed.

Lemma evaluate_answers_surplus_selections_witness :
  evaluate_answers (RT := example_runtime) ([Some 2%Z] ++ [Some 0%Z; None])
    abc_quiz
  = evaluate_answers (RT := example_runtime) [Some 2%Z] abc_quiz.
Proof.
  apply (@evaluate_answers_surplus_selections example_runtime).
  cbn. lia.
Defined.

(** X13.  The test [correct >= total * 0.6], made on the binary64
    product, agrees with exact arithmetic on every total up to 100: it
    holds exactly when 3 * total <= 5 * correct. *)
Theorem sixty_percent_test_exact :
  forall correct total : Z,
    (0 <= correct <= total)%Z -> (total <= 100)%Z ->
    (at_least_60_percent correct total = true
     <-> (3 * total <= 5 * correct)%Z)
    /\ feedback_tier correct total = tier_message correct total.
Proof.
  intros correct total Hc Ht. split.
  - rewrite at_least_60_percent_exact by assumption.
    rewrite Z.leb_le. lia.
  - now apply feedback_tier_exact.
Qed.

Lemma sixty_percent_test_exact_witness :
  at_least_60_percent 3 5 = true /\ at_least_60_percent 2 5 = false.
Proof.
  split.
  - apply (@sixty_percent_test_exact 3 5); lia.
  - destruct (at_least_60_percent 2 5) eqn:E; [|reflexivity].
    apply (@sixty_percent_test_exact 2 5) in E; lia.
Defined.

(** X14.  The scorer on a quiz that is not well-formed.  After any
    well-formed questions, a question without the key [answer_index]
    raises [KeyError], and a question whose integer answer index lies
    outside its list of options, in either direction, raises
    [IndexError]; the selections make no difference. *)
Theorem evaluate_answers_malformed_question :
  forall (RT : Runtime) (user_choices : list (option Z))
         (good : list pyval) (qs : list scorable)
         (d : dict) (rest : list pyval),
    Forall2 represents good qs ->
    (dict_lookup d (lit "answer_index") = None ->
     evaluate_answers user_choices (good ++ PDict d :: rest)
     = Raise KeyError)
    /\ (forall (opts : list pyval) (answer_index : pyval) (a : Z),
           dict_lookup d (lit "options") = Some (PList opts) ->
           dict_lookup d (lit "answer_index") = Some answer_index ->
           int_value answer_index = Some a ->
           (a < - len opts \/ len opts <= a)%Z ->
           evaluate_answers user_choices (good ++ PDict d :: rest)
           = Raise IndexError).
Proof.
  intros RT user_choices good qs d rest Hgood. split.
  - intros Hmiss. unfold evaluate_answers.
    rewrite (@score_loop_then RT user_choices good qs (PDict d) rest
               KeyError Hgood); [reflexivity|].
    unfold score_question. rewrite choice_at_ok. cbn [bind py_getitem].
    now rewrite Hmiss.
  - intros opts answer_index a Hopts Hans Hval Hout.
    unfold evaluate_answers.
    rewrite (@score_loop_then RT user_choices good qs (PDict d) rest
               IndexError Hgood); [reflexivity|].
    unfold score_question. rewrite choice_at_ok. cbn [bind py_getitem].
    rewrite Hans. cbn [bind].
    rewrite (chosen_label_ok d _ {| sc_options := opts; sc_answer := a |}
               Hopts).
    cbn [bind]. rewrite Hopts. cbn [bind py_getitem]. rewrite Hval.
    unfold seq_index.
    destruct (Z.ltb_spec a 0).
    + destruct (Z.leb_spec 0 (a + len opts)); [lia|reflexivity].
    + destruct (Z.leb_spec 0 a); [|lia].
      destruct (Z.ltb_spec a (len opts)); [lia|reflexivity].
Qed.

Lemma evaluate_answers_malformed_question_witness :
  evaluate_answers (RT := example_runtime) [Some 2%Z; Some 0%Z]
    (abc_quiz ++ [PDict [(lit "options", PList [PStr (lit "A")])]])
  = Raise KeyError
  /\ evaluate_answers (RT := example_runtime) [Some 2%Z; Some 0%Z]
       (abc_quiz ++ [sum_entry_out_of_range])
     = Raise IndexError.
Proof.
  split.
  - apply (@evaluate_answers_malformed_question example_runtime
             [Some 2%Z; Some 0%Z] abc_quiz [abc_scorable]
             [(lit "options", PList [PStr (lit "A")])] []).
    + repeat constructor. eexists _, (PInt 2).
      repeat split; cbn; try reflexivity; unfold len; cbn; lia.
    + reflexivity.
  - apply (@evaluate_answers_malformed_question example_runtime
             [Some 2%Z; Some 0%Z] abc_quiz [abc_scorable]
             (items_of sum_entry_out_of_range) [])
      with (opts := [PStr (lit "3"); PStr (lit "4"); PStr (lit "5")])
           (answer_index := PInt 3) (a := 3%Z).
    + repeat constructor. eexists _, (PInt 2).
      repeat split; cbn; try reflexivity; unfold len; cbn; lia.
    + reflexivity.
    + reflexivity.
    + reflexivity.
    + unfold len. cbn. lia.
Defined.

(* ================================================================== *)
(** * Properties: Gradio callbacks *)
(* ================================================================== *)

Section QuizViewFacts.

Context {RT : Runtime}.

(** The loop over the quiz and the five updates, on at most five Quiz
    Question records. *)
Lemma fill_slots_records (quiz : list pyval) :
  Forall quiz_question quiz -> (length quiz <= 5)%nat ->
  (r <- fill_slots 0 quiz (repeat false 5) (repeat default_label 5) ;;
   mapM (slot_update (fst r) (snd r)) [0; 1; 2; 3; 4]%Z)
  = Ok (map (slot_of quiz) [0; 1; 2; 3; 4]%nat).
Proof.
  intros Hall Hlen.
  do 6 (try (destruct quiz as [|? quiz])); cbn [length] in Hlen; try lia;
    repeat match goal with
           | H : Forall _ (_ :: _) |- _ => inversion H; clear H; subst
           | H : quiz_question _ |- _ =>
               destruct H as (? & ? & ? & ? & -> & _)
           end;
    reflexivity.
Qed.

(** What [quiz_view] returns once the normalizer has returned. *)
Lemma quiz_view_normalized (raw : pystr) (parsed : pyval)
    (quiz : list pyval) :
  parse_quiz_json raw = Ok parsed ->
  normalize_quiz parsed = Ok quiz ->
  quiz_view raw
  = Ok (quiz, map (slot_of quiz) [0; 1; 2; 3; 4]%nat,
        match quiz with [] => raw | _ :: _ => msg_quiz_generated end).
Proof.
  intros Hp Hn. unfold quiz_view. rewrite Hp. cbn [bind]. rewrite Hn.
  cbn [bind].
  destruct (normalize_quiz_invariant _ Hn) as [Hall Hlen].
  pose proof (fill_slots_records Hall Hlen) as H.
  destruct (fill_slots 0 quiz (repeat false 5) (repeat default_label 5))
    as [r|e]; cbn [bind] in H |- *; [|discriminate].
  now rewrite H.
Qed.

Lemma quiz_view_raise (raw : pystr) (e : exn) :
  quiz_view raw = Raise e <->
  exists parsed,
    parse_quiz_json raw = Ok parsed /\ normalize_quiz parsed = Raise e.
Proof.
  destruct (parse_quiz_json_returns raw) as [parsed Hp]. split.
  - intros H. exists parsed. split; [exact Hp|].
    destruct (normalize_quiz parsed) as [quiz|e'] eqn:Hn.
    + rewrite (quiz_view_normalized _ Hp Hn) in H. discriminate.
    + unfold quiz_view in H. rewrite Hp in H. cbn [bind] in H.
      rewrite Hn in H. cbn [bind] in H. now injection H as ->.
  - intros (parsed' & Hp' & Hn). unfold quiz_view. rewrite Hp'.
    cbn [bind]. now rewrite Hn.
Qed.

End QuizViewFacts.

(** X15.  What the quiz callback shows.  When the normalizer returns, the
    callback returns the normalized quiz for the state and exactly five
    radio updates: radio k is visible, labelled "Q<k+1>. <question>" and
    offers that question's options exactly when the quiz has a question
    k; the others are hidden with the placeholder label.  The status is
    the raw text of the model when the quiz is empty and the fixed
    "Quiz generated" text otherwise. *)
Theorem quiz_view_slots :
  forall (RT : Runtime) (raw : pystr) (parsed : pyval) (quiz : list pyval),
    parse_quiz_json raw = Ok parsed ->
    normalize_quiz parsed = Ok quiz ->
    quiz_view raw
    = Ok (quiz, map (slot_of quiz) [0; 1; 2; 3; 4]%nat,
          match quiz with [] => raw | _ :: _ => msg_quiz_generated end)
    /\ (length quiz <= 5)%nat
    /\ forall k : nat,
         visible (slot_of quiz k) = true <-> (k < length quiz)%nat.
Proof.
  intros RT raw parsed quiz Hp Hn. split; [|split].
  - now apply quiz_view_normalized with parsed.
  - now destruct (normalize_quiz_invariant _ Hn).
  - intros k. unfold slot_of.
    destruct (nth_error quiz k) as [q|] eqn:Hk; cbn [visible].
    + split; [intros _|reflexivity]. apply nth_error_Some. congruence.
    + apply nth_error_None in Hk. split; [discriminate|lia].
Qed.

Lemma quiz_view_slots_witness :
  quiz_view (RT := example_runtime) sure_text
  = Ok ([sum_entry],
        [ {| visible := true; label := lit "Q1. 2+2?";
             choices := PList [PStr (lit "3"); PStr (lit "4");
                               PStr (lit "5")];
             value := PNone |};
          @slot_of example_runtime [] 1; @slot_of example_runtime [] 2;
          @slot_of example_runtime [] 3; @slot_of example_runtime [] 4 ],
        msg_quiz_generated).
Proof.
  apply (@quiz_view_slots example_runtime sure_text (quiz_of [sum_entry])
           [sum_entry]).
  - vm_compute. reflexivity.
  - reflexivity.
Defined.

(** X16.  The quiz callback fails only where the normalizer fails: the
    parser always returns, and the loop that fills the five radios never
    raises, since the normalizer returns at most five records, each with
    a question and options.  So [quiz_view] raises an exception exactly
    when the normalizer raises it on the parsed structure. *)
Theorem quiz_view_raises_only_in_normalizer :
  forall (RT : Runtime) (raw : pystr) (e : exn),
    quiz_view raw = Raise e <->
    exists parsed,
      parse_quiz_json raw = Ok parsed /\ normalize_quiz parsed = Raise e.
Proof. intros RT raw e. apply quiz_view_raise. Qed.

Section DisplayFacts.

Context {RT : Runtime}.

Lemma pystr_eqb_eq (a b : pystr) : pystr_eqb a b = true <-> a = b.
Proof.
  revert b. induction a as [|x a IH]; intros [|y b]; cbn;
    try (split; [discriminate|discriminate]); [tauto|].
  rewrite andb_true_iff, N.eqb_eq, IH. split.
  - now intros [-> ->].
  - intros E. injection E as -> ->. now split.
Qed.

(** [list_index_from] finds the first element that is the label. *)
Lemma list_index_from_spec (l : list pyval) (c : pystr) (i k : Z) :
  list_index_from l c i = Some k <->
  (i <= k < i + len l)%Z
  /\ nth (Z.to_nat (k - i)) l PNone = PStr c
  /\ forall j, (j < Z.to_nat (k - i))%nat -> nth j l PNone <> PStr c.
Proof.
  revert i. unfold len.
  induction l as [|v l IH]; intros i; cbn [list_index_from length].
  - split; [discriminate|]. intros [H _]. lia.
  - destruct (match v with PStr s => pystr_eqb s c | _ => false end)
      eqn:Hv.
    + assert (Ev : v = PStr c).
      { destruct v; try discriminate. apply pystr_eqb_eq in Hv.
        now subst. }
      split.
      * intros E. injection E as <-. rewrite Z.sub_diag. cbn.
        repeat split; try lia. exact Ev.
      * intros (Hk & Hn & Hfirst). f_equal.
        destruct (Z.eq_dec k i) as [E|E]; [now subst|exfalso].
        apply (Hfirst 0%nat); [lia|exact Ev].
    + assert (Ev : v <> PStr c).
      { intros ->. cbn in Hv.
        assert (pystr_eqb c c = true) by now apply pystr_eqb_eq.
        congruence. }
      rewrite IH. split.
      * intros (Hk & Hn & Hfirst).
        replace (Z.to_nat (k - i)) with (S (Z.to_nat (k - (i + 1)))) by lia.
        repeat split; try lia; [exact Hn|].
        intros [|j] Hj; [exact Ev|]. apply Hfirst. lia.
      * intros (Hk & Hn & Hfirst).
        assert (Hki : (k <> i)%Z).
        { intros ->. rewrite Z.sub_diag in Hn. now cbn in Hn. }
        replace (Z.to_nat (k - i)) with (S (Z.to_nat (k - (i + 1))))
          in Hn, Hfirst by lia.
        repeat split; try lia; [exact Hn|].
        intros j Hj. apply (Hfirst (S j)). lia.
Qed.

Lemma represents_options (q : pyval) (s : scorable) :
  represents q s ->
  py_getitem q (PStr (lit "options")) = Ok (PList (sc_options s))
  /\ field_or (items_of q) "options" PNone = PList (sc_options s).
Proof.
  intros (d & ai & -> & Hopts & _). unfold field_or.
  cbn [py_getitem items_of]. now rewrite Hopts.
Qed.

(** The loop of [on_display_results] on well-formed questions, as long
    as the positions stay within the selected values. *)
Lemma selections_loop_ok (quiz : list pyval) (qs : list scorable)
    (selected_values : list (option pystr)) :
  Forall2 represents quiz qs ->
  forall (i : nat) (selections : list (option Z)),
    (i + length quiz <= length selected_values)%nat ->
    selections_loop i quiz selected_values selections
    = Ok (selections ++ selections_from i quiz selected_values).
Proof.
  induction 1 as [|q s quiz qs Hq _ IH]; intros i selections Hi.
  - cbn. now rewrite app_nil_r.
  - cbn [length] in Hi. cbn [selections_loop selections_from].
    rewrite (seq_index_ok selected_values None)
      by (unfold len; lia).
    cbn [bind]. rewrite Nat2Z.id.
    destruct (represents_options Hq) as [Hget Hfield].
    unfold selection_of. rewrite Hfield.
    destruct (nth i selected_values None) as [c|].
    + rewrite Hget. cbn [bind py_index].
      destruct (list_index_from (sc_options s) c 0) as [k|];
        cbn [bind]; rewrite IH by lia; rewrite <- app_assoc; reflexivity.
    + rewrite IH by lia. rewrite <- app_assoc. reflexivity.
Qed.

(** The loop runs past the selected values when the quiz is longer. *)
Lemma selections_loop_overflow (quiz : list pyval) (qs : list scorable)
    (selected_values : list (option pystr)) :
  Forall2 represents quiz qs ->
  forall (i : nat) (selections : list (option Z)),
    (i <= length selected_values < i + length quiz)%nat ->
    selections_loop i quiz selected_values selections = Raise IndexError.
Proof.
  induction 1 as [|q s quiz qs Hq _ IH]; intros i selections Hi.
  - cbn [length] in Hi. lia.
  - cbn [length] in Hi. cbn [selections_loop].
    destruct (Nat.eq_dec i (length selected_values)) as [E|E].
    + unfold seq_index, len.
      destruct (Z.ltb_spec (Z.of_nat i) 0); [lia|].
      destruct (Z.leb_spec 0 (Z.of_nat i)); [|lia].
      destruct (Z.ltb_spec (Z.of_nat i)
                  (Z.of_nat (length selected_values))); [lia|].
      reflexivity.
    + rewrite (seq_index_ok selected_values None)
        by (unfold len; lia).
      cbn [bind]. rewrite Nat2Z.id.
      destruct (represents_options Hq) as [Hget _].
      destruct (nth i selected_values None) as [c|].
      * rewrite Hget. cbn [bind py_index].
        destruct (list_index_from (sc_options s) c 0) as [k|];
          cbn [bind]; apply IH; lia.
      * apply IH. lia.
Qed.

Lemma quiz_questions_scorable (quiz : list pyval) :
  Forall quiz_question quiz -> exists qs, Forall2 represents quiz qs.
Proof.
  induction 1 as [|r quiz Hr _ [qs IH]].
  - now exists [].
  - destruct (quiz_question_represents Hr) as [s Hs].
    exists (s :: qs). now constructor.
Qed.

(** The callback on a well-formed quiz of at most five questions. *)
Lemma on_display_results_ok (quiz : list pyval) (qs : list scorable)
    (a1 a2 a3 a4 a5 : option pystr) :
  Forall2 represents quiz qs -> (length quiz <= 5)%nat ->
  on_display_results (Some quiz) a1 a2 a3 a4 a5
  = evaluate_answers (selections_from 0 quiz [a1; a2; a3; a4; a5]) quiz.
Proof.
  intros Hrep Hlen. unfold on_display_results.
  now rewrite (selections_loop_ok [a1; a2; a3; a4; a5] Hrep)
    by (cbn [length]; lia).
Qed.

Lemma selection_at_selections_from (quiz : list pyval)
    (selected_values : list (option pystr)) (i k : nat) (q : pyval) :
  nth_error quiz k = Some q ->
  selection_at (selections_from i quiz selected_values) k
  = selection_of q (nth (i + k) selected_values None).
Proof.
  revert i k. induction quiz as [|q' quiz IH]; intros i [|k] Hq;
    cbn in Hq; try discriminate.
  - injection Hq as ->. cbn. now rewrite Nat.add_0_r.
  - unfold selection_at. cbn [selections_from nth].
    fold (selection_at (selections_from (S i) quiz selected_values) k).
    rewrite (IH (S i) k Hq). f_equal. f_equal. lia.
Qed.

End DisplayFacts.

Section DisplayMore.

Context {RT : Runtime}.

Lemma list_index_from_none (l : list pyval) (c : pystr) (i : Z) :
  list_index_from l c i = None <-> ~ In (PStr c) l.
Proof.
  revert i. induction l as [|v l IH]; intros i; cbn [list_index_from In].
  - tauto.
  - destruct (match v with PStr s => pystr_eqb s c | _ => false end)
      eqn:Hv.
    + assert (Ev : v = PStr c).
      { destruct v; try discriminate. apply pystr_eqb_eq in Hv.
        now subst. }
      split; [discriminate|]. intros H. destruct H. now left.
    + rewrite IH. split; [|tauto]. intros H [E|HIn]; [|tauto].
      subst v. cbn in Hv.
      assert (pystr_eqb c c = true) by now apply pystr_eqb_eq.
      congruence.
Qed.

Lemma Forall2_nth_error_r {A B : Type} (R : A -> B -> Prop)
    (l : list A) (l' : list B) (k : nat) (y : B) :
  Forall2 R l l' -> nth_error l' k = Some y ->
  exists x, nth_error l k = Some x /\ R x y.
Proof.
  intros H. revert k. induction H as [|x y' l l' Hxy _ IH]; intros [|k] Hk;
    cbn in Hk; try discriminate.
  - injection Hk as ->. now exists x.
  - now apply IH.
Qed.

(** The selection computed for position [k] of a well-formed quiz. *)
Lemma selection_at_position (quiz : list pyval) (qs : list scorable)
    (selected_values : list (option pystr)) (k : nat) (s : scorable) :
  Forall2 represents quiz qs -> nth_error qs k = Some s ->
  selection_at (selections_from 0 quiz selected_values) k
  = match nth k selected_values None with
    | Some c => list_index_from (sc_options s) c 0
    | None => None
    end.
Proof.
  intros Hrep Hs.
  destruct (Forall2_nth_error_r _ Hrep Hs) as (q & Hq & Hqs).
  rewrite (@selection_at_selections_from quiz selected_values 0 k q Hq). cbn [Nat.add].
  unfold selection_of.
  destruct (represents_options Hqs) as [_ ->].
  now destruct (nth k selected_values None).
Qed.

(** One wrong verdict keeps the count below the number of questions. *)
Lemma correct_count_below (selections : list (option Z))
    (qs : list scorable) (k : nat) (s : scorable) :
  nth_error qs k = Some s ->
  verdict (selection_at selections k) s = false ->
  (correct_count selections 0 qs < len qs)%Z.
Proof.
  intros Hs Hv.
  pose proof (correct_count_bounds selections qs 0) as Hb.
  destruct (Z.eq_dec (correct_count selections 0 qs) (len qs)) as [E|E];
    [|lia].
  pose proof (proj1 (correct_count_all selections qs 0) E k s Hs) as E'.
  cbn [Nat.add] in E'. congruence.
Qed.

Lemma lstrip_nil_iff (s : pystr) :
  lstrip s = [] <-> Forall (fun c => isspace c = true) s.
Proof.
  induction s as [|c s IH]; cbn [lstrip].
  - split; [constructor|reflexivity].
  - destruct (isspace c) eqn:Hc.
    + rewrite IH. split; [now constructor|now inversion 1].
    + split; [discriminate|]. inversion 1. congruence.
Qed.

(** The configured key is empty exactly when the variable is unset or
    holds only whitespace. *)
Lemma api_key_empty_iff (env : option pystr) :
  api_key_of_env env = []
  <-> match env with
      | Some v => Forall (fun c => isspace c = true) v
      | None => True
      end.
Proof.
  unfold api_key_of_env. destruct env as [v|]; [|now split].
  unfold strip, rstrip. split.
  - intros H. apply lstrip_nil_iff.
    destruct (lstrip v) as [|c t] eqn:Hl; [reflexivity|exfalso].
    pose proof (lstrip_head v Hl) as Hc.
    assert (Hr : lstrip (rev (c :: t)) = []).
    { rewrite <- (rev_involutive (lstrip (rev (c :: t)))), H.
      reflexivity. }
    apply lstrip_nil_iff in Hr. rewrite Forall_forall in Hr.
    specialize (Hr c). rewrite Hr in Hc; [discriminate|].
    apply in_rev. rewrite rev_involutive. now left.
  - intros H. apply lstrip_nil_iff in H. now rewrite H.
Qed.

End DisplayMore.

(** X17.  The results callback on a well-formed quiz of at most five
    questions returns for all five selected labels.  It scores the quiz
    with, at position k, no selection when nothing is selected or no
    option is the selected label, and otherwise the position of the first
    option that is the selected label. *)
Theorem on_display_results_selections :
  forall (RT : Runtime) (quiz : list pyval) (qs : list scorable)
         (a1 a2 a3 a4 a5 : option pystr),
    Forall2 represents quiz qs -> (length quiz <= 5)%nat ->
    let selections := selections_from 0 quiz [a1; a2; a3; a4; a5] in
    on_display_results (Some quiz) a1 a2 a3 a4 a5
    = evaluate_answers selections quiz
    /\ (exists summary feedback,
           on_display_results (Some quiz) a1 a2 a3 a4 a5
           = Ok (summary, feedback))
    /\ forall (k : nat) (s : scorable),
         nth_error qs k = Some s ->
         match nth k [a1; a2; a3; a4; a5] None with
         | None => nth k selections None = None
         | Some c =>
             (nth k selections None = None
              <-> ~ In (PStr c) (sc_options s))
             /\ forall j : Z,
                  nth k selections None = Some j
                  <-> (0 <= j < len (sc_options s))%Z
                      /\ nth (Z.to_nat j) (sc_options s) PNone = PStr c
                      /\ forall i, (i < Z.to_nat j)%nat ->
                           nth i (sc_options s) PNone <> PStr c
         end.
Proof.
  intros RT quiz qs a1 a2 a3 a4 a5 Hrep Hlen. cbv zeta.
  split; [|split].
  - now apply on_display_results_ok with qs.
  - rewrite (on_display_results_ok a1 a2 a3 a4 a5 Hrep Hlen).
    rewrite (evaluate_answers_report _ Hrep).
    destruct quiz; now eexists _, _.
  - intros k s Hs.
    pose proof (selection_at_position [a1; a2; a3; a4; a5] k Hrep Hs) as Hsel.
    unfold selection_at in Hsel. rewrite Hsel.
    destruct (nth k [a1; a2; a3; a4; a5] None) as [c|]; [|reflexivity].
    split; [apply list_index_from_none|].
    intros j. rewrite list_index_from_spec.
    rewrite Z.sub_0_r, Z.add_0_l. reflexivity.
Qed.

Lemma on_display_results_selections_witness :
  on_display_results (RT := example_runtime) (Some abc_quiz)
    (Some (lit "C")) None None None None
  = evaluate_answers (RT := example_runtime) [Some 2%Z] abc_quiz.
Proof.
  apply (@on_display_results_selections example_runtime abc_quiz
           [abc_scorable]).
  - repeat constructor. eexists _, (PInt 2).
    repeat split; cbn; try reflexivity; unfold len; cbn; lia.
  - cbn. lia.
Defined.

(** X18.  Label round trip: when for every question the selected label is
    the text of the correct option, and no earlier option of that
    question has the same text, a well-formed quiz of one to five
    questions is scored t out of t with the mastery message. *)
Theorem on_display_results_mastery :
  forall (RT : Runtime) (quiz : list pyval) (qs : list scorable)
         (a1 a2 a3 a4 a5 : option pystr),
    Forall2 represents quiz qs -> quiz <> [] -> (length quiz <= 5)%nat ->
    (forall (k : nat) (s : scorable),
        nth_error qs k = Some s ->
        exists c,
          nth k [a1; a2; a3; a4; a5] None = Some c
          /\ nth (Z.to_nat (sc_answer s)) (sc_options s) PNone = PStr c
          /\ forall i, (i < Z.to_nat (sc_answer s))%nat ->
                       nth i (sc_options s) PNone <> PStr c) ->
    exists details,
      on_display_results (Some quiz) a1 a2 a3 a4 a5
      = Ok (lit "Score: " ++ str_of_int (len quiz) ++ lit " / "
            ++ str_of_int (len quiz),
            msg_mastery ++ nl ++ nl ++ details).
Proof.
  intros RT quiz qs a1 a2 a3 a4 a5 Hrep Hne Hlen Hpick.
  rewrite (on_display_results_ok a1 a2 a3 a4 a5 Hrep Hlen).
  rewrite (evaluate_answers_report _ Hrep).
  destruct quiz as [|q quiz]; [congruence|]. cbv zeta.
  set (selections := selections_from 0 (q :: quiz) [a1; a2; a3; a4; a5]).
  assert (Hall : correct_count selections 0 qs = len (q :: quiz)).
  { rewrite <- (Forall2_represents_length Hrep). apply correct_count_all.
    intros k s Hs. cbn [Nat.add]. unfold selections.
    rewrite (selection_at_position [a1; a2; a3; a4; a5] k Hrep Hs).
    destruct (Hpick k s Hs) as (c & -> & Hc & Hfirst).
    destruct (Forall2_nth_error_r _ Hrep Hs) as (q' & _ & Hq').
    destruct Hq' as (d & ai & _ & _ & _ & _ & Hrange).
    assert (Hidx : list_index_from (sc_options s) c 0 = Some (sc_answer s)).
    { apply list_index_from_spec. rewrite Z.sub_0_r, Z.add_0_l.
      repeat split; try lia; assumption. }
    rewrite Hidx. cbn [verdict]. apply Z.eqb_refl. }
  rewrite Hall. unfold feedback_tier, score_line. rewrite Z.eqb_refl.
  now eexists.
Qed.

Lemma on_display_results_mastery_witness :
  exists details,
    on_display_results (RT := example_runtime) (Some abc_quiz)
      (Some (lit "C")) None None None None
    = Ok (lit "Score: 1 / 1", msg_mastery ++ nl ++ nl ++ details).
Proof.
  apply (@on_display_results_mastery example_runtime abc_quiz
           [abc_scorable]).
  - repeat constructor. eexists _, (PInt 2).
    repeat split; cbn; try reflexivity; unfold len; cbn; lia.
  - discriminate.
  - cbn. lia.
  - intros [|k] s Hs; cbn in Hs.
    + injection Hs as <-. exists (lit "C"). split; [reflexivity|].
      split; [reflexivity|].
      intros [|[|i]] Hi; cbn in Hi |- *; try discriminate; lia.
    + destruct k; discriminate.
Defined.

(** X19.  A question whose correct option repeats the text of an earlier
    option can never be answered correctly: the label is mapped to the
    earlier position, so whatever is selected, a well-formed quiz of at
    most five questions that holds such a question is scored below t out
    of t. *)
Theorem on_display_results_duplicate_option :
  forall (RT : Runtime) (quiz : list pyval) (qs : list scorable)
         (a1 a2 a3 a4 a5 : option pystr)
         (k : nat) (s : scorable) (j : nat),
    Forall2 represents quiz qs -> (length quiz <= 5)%nat ->
    nth_error qs k = Some s ->
    (j < Z.to_nat (sc_answer s))%nat ->
    nth j (sc_options s) PNone
    = nth (Z.to_nat (sc_answer s)) (sc_options s) PNone ->
    exists (correct : Z) (feedback : pystr),
      on_display_results (Some quiz) a1 a2 a3 a4 a5
      = Ok (lit "Score: " ++ str_of_int correct ++ lit " / "
            ++ str_of_int (len quiz), feedback)
      /\ (correct < len quiz)%Z.
Proof.
  intros RT quiz qs a1 a2 a3 a4 a5 k s j Hrep Hlen Hs Hj Hdup.
  rewrite (on_display_results_ok a1 a2 a3 a4 a5 Hrep Hlen).
  rewrite (evaluate_answers_report _ Hrep).
  destruct quiz as [|q quiz].
  { inversion Hrep; subst. destruct k; discriminate. }
  cbv zeta. eexists _, _. split; [reflexivity|].
  rewrite <- (Forall2_represents_length Hrep).
  apply correct_count_below with k s; [exact Hs|].
  rewrite (selection_at_position [a1; a2; a3; a4; a5] k Hrep Hs).
  destruct (nth k [a1; a2; a3; a4; a5] None) as [c|]; [|reflexivity].
  destruct (list_index_from (sc_options s) c 0) as [u|] eqn:Hu;
    [|reflexivity].
  cbn [verdict]. apply Z.eqb_neq. intros ->.
  apply list_index_from_spec in Hu.
  rewrite Z.sub_0_r in Hu. destruct Hu as (_ & Hc & Hfirst).
  apply (Hfirst j Hj). now rewrite Hdup.
Qed.

Lemma on_display_results_duplicate_option_witness :
  exists (correct : Z) (feedback : pystr),
    on_display_results (RT := example_runtime) (Some repeated_option_quiz)
      (Some (lit "yes")) None None None None
    = Ok (lit "Score: " ++ str_of_int correct ++ lit " / "
          ++ str_of_int (len repeated_option_quiz), feedback)
    /\ (correct < len repeated_option_quiz)%Z.
Proof.
  apply (@on_display_results_duplicate_option example_runtime
           repeated_option_quiz [repeated_option_scorable]
           (Some (lit "yes")) None None None None
           0%nat repeated_option_scorable 0%nat).
  - repeat constructor. eexists _, (PInt 2).
    repeat split; cbn; try reflexivity; unfold len; cbn; lia.
  - cbn. lia.
  - reflexivity.
  - cbn. lia.
  - reflexivity.
Defined.

(** X20.  The results callback reads the five selected labels by
    position: on a well-formed quiz of more than five questions it raises
    [IndexError]. *)
Theorem on_display_results_more_than_five :
  forall (RT : Runtime) (quiz : list pyval) (qs : list scorable)
         (a1 a2 a3 a4 a5 : option pystr),
    Forall2 represents quiz qs -> (5 < length quiz)%nat ->
    on_display_results (Some quiz) a1 a2 a3 a4 a5 = Raise IndexError.
Proof.
  intros RT quiz qs a1 a2 a3 a4 a5 Hrep Hlen. unfold on_display_results.
  now rewrite (selections_loop_overflow [a1; a2; a3; a4; a5] Hrep)
    by (cbn [length]; lia).
Qed.

Lemma on_display_results_more_than_five_witness :
  on_display_results (RT := example_runtime)
    (Some (abc_quiz ++ abc_quiz ++ abc_quiz ++ abc_quiz ++ abc_quiz
           ++ abc_quiz))
    None None None None None
  = Raise IndexError.
Proof.
  apply (@on_display_results_more_than_five example_runtime _
           (repeat abc_scorable 6)).
  - repeat constructor; eexists _, (PInt 2);
      repeat split; cbn; try reflexivity; unfold len; cbn; lia.
  - cbn. lia.
Defined.

(** X21.  From generation to scoring: whatever quiz the quiz callback
    returns for the state, the results callback returns on it, for all
    five selected labels. *)
Theorem on_generate_quiz_then_display :
  forall (RT : Runtime) (key : pystr) (provider : request -> reply)
         (subject topic language level : pystr) (sent : list request)
         (quiz : list pyval) (updates : list radio_update)
         (status : pystr) (a1 a2 a3 a4 a5 : option pystr),
    fst (on_generate_quiz key provider subject topic language level sent)
    = Returned (Ok (quiz, updates, status)) ->
    exists summary feedback,
      on_display_results (Some quiz) a1 a2 a3 a4 a5
      = Ok (summary, feedback).
Proof.
  intros RT key provider subject topic language level sent quiz updates
    status a1 a2 a3 a4 a5 H.
  unfold on_generate_quiz in H. cbn [fst] in H.
  destruct (fst (generate_with_groq key provider _ sent)) as [raw|e];
    [|discriminate].
  injection H as H.
  destruct (parse_quiz_json_returns raw) as [parsed Hp].
  destruct (normalize_quiz parsed) as [quiz'|e] eqn:Hn.
  - rewrite (quiz_view_normalized _ Hp Hn) in H. injection H as -> _ _.
    destruct (normalize_quiz_invariant _ Hn) as [Hall Hlen].
    destruct (quiz_questions_scorable Hall) as [qs Hrep].
    rewrite (on_display_results_ok a1 a2 a3 a4 a5 Hrep Hlen).
    rewrite (evaluate_answers_report _ Hrep).
    destruct quiz; now eexists _, _.
  - assert (Hr : quiz_view raw = Raise e).
    { apply quiz_view_raise. now exists parsed. }
    rewrite Hr in H. discriminate.
Qed.

Lemma on_generate_quiz_then_display_witness :
  exists summary feedback,
    on_display_results (RT := example_runtime) (Some [sum_entry])
      (Some (lit "4")) None None None None
    = Ok (summary, feedback).
Proof.
  apply (@on_generate_quiz_then_display example_runtime (lit "gsk_1")
           (fun _ => Response [sure_text])
           (lit "Maths") (lit "Sums") (lit "English") (lit "Beginner") []
           [sum_entry]
           (map (slot_of (RT := example_runtime) [sum_entry])
              [0; 1; 2; 3; 4]%nat)
           msg_quiz_generated).
  vm_compute. reflexivity.
Defined.

(** X22.  Without a credential no generation callback contacts the
    provider.  The three text callbacks return the credential-missing
    message; the quiz callback returns an empty quiz, five hidden radios
    and the credential-missing message as status. *)
Theorem callbacks_without_key :
  forall (RT : Runtime) (env : option pystr) (provider : request -> reply)
         (subject topic language level : pystr) (sent : list request),
    api_key_of_env env = [] ->
    let key := api_key_of_env env in
    on_generate_explanation key provider subject topic language level sent
    = (Returned msg_missing_key, sent)
    /\ on_generate_resources key provider subject topic language level sent
       = (Returned msg_missing_key, sent)
    /\ on_generate_roadmap key provider subject topic language level sent
       = (Returned msg_missing_key, sent)
    /\ on_generate_quiz key provider subject topic language level sent
       = (Returned (Ok ([], map (slot_of []) [0; 1; 2; 3; 4]%nat,
                        msg_missing_key)),
          sent).
Proof.
  intros RT env provider subject topic language level sent Hkey.
  cbv zeta. rewrite Hkey. repeat split.
Qed.

Lemma callbacks_without_key_witness :
  on_generate_quiz (RT := example_runtime) (api_key_of_env (Some (lit " ")))
    (fun _ => Response [sure_text])
    (lit "Maths") (lit "Sums") (lit "English") (lit "Beginner") []
  = (Returned (Ok ([], map (slot_of (RT := example_runtime) [])
                         [0; 1; 2; 3; 4]%nat,
                   msg_missing_key)),
     []).
Proof.
  apply (@callbacks_without_key example_runtime (Some (lit " "))).
  reflexivity.
Defined.

(** X23.  The credential counts as missing exactly when the environment
    variable is unset or holds only whitespace; exactly then the
    completion operation sends no request. *)
Theorem credential_missing_iff_blank :
  forall (env : option pystr) (provider : request -> reply)
         (prompt : pystr) (sent : list request),
    let blank := match env with
                 | Some v => Forall (fun c => isspace c = true) v
                 | None => True
                 end in
    (api_key_of_env env = [] <-> blank)
    /\ (snd (generate_with_groq (api_key_of_env env) provider prompt sent)
        = sent <-> blank)
    /\ (~ blank ->
        snd (generate_with_groq (api_key_of_env env) provider prompt sent)
        = sent ++ [completion_request prompt]).
Proof.
  intros env provider prompt sent. cbv zeta.
  pose proof (api_key_empty_iff env) as Hkey.
  split; [exact Hkey|].
  unfold generate_with_groq, call_provider.
  destruct (api_key_of_env env) as [|c key].
  - split; [split; [intros _; now apply Hkey|reflexivity]|].
    intros Hnb. destruct Hnb. now apply Hkey.
  - assert (Hsnd : snd (match provider (completion_request prompt) with
                        | Response [] =>
                            (Raised (lit "list index out of range"),
                             sent ++ [completion_request prompt])
                        | Response (content :: _) =>
                            (Returned content,
                             sent ++ [completion_request prompt])
                        | Failure message =>
                            (@Raised pystr message,
                             sent ++ [completion_request prompt])
                        end)
                   = sent ++ [completion_request prompt]).
    { now destruct (provider (completion_request prompt)) as [[|? ?]|?]. }
    cbn [snd]. rewrite Hsnd. split; [|reflexivity].
    split.
    + intros E. apply (f_equal (@length request)) in E.
      rewrite length_app in E. cbn [length] in E. lia.
    + intros Hb. apply Hkey in Hb. discriminate.
Qed.

Lemma credential_missing_iff_blank_witness :
  snd (generate_with_groq (api_key_of_env (Some (lit " k ")))
         (fun _ => Response []) (lit "p") [])
  = [completion_request (lit "p")].
Proof.
  apply (credential_missing_iff_blank (Some (lit " k "))
           (fun _ => Response []) (lit "p") []).
  intros H. inversion H as [|c v Hc Hv]; subst.
  inversion Hv as [|c' v' Hc' Hv']; subst. discriminate.
Defined.

(** X24.  With a credential, each of the four generation callbacks sends
    exactly one request, whose single user message is the prompt of its
    task built from the subject, topic, language and level given; the
    three text callbacks return the content of the first choice of the
    response. *)
Theorem generation_callbacks_send_prompt :
  forall (RT : Runtime) (key : pystr) (provider : request -> reply)
         (subject topic language level : pystr) (sent : list request),
    key <> [] ->
    let sends (run : outcome pystr * list request) (prompt : pystr) :=
      snd run = sent ++ [completion_request prompt]
      /\ messages (completion_request prompt)
         = PList [PDict [(lit "role", PStr (lit "user"));
                         (lit "content", PStr prompt)]]
      /\ contains prompt subject /\ contains prompt topic
      /\ contains prompt language /\ contains prompt level
      /\ forall content others,
           provider (completion_request prompt)
           = Response (content :: others) ->
           fst run = Returned content in
    sends (on_generate_explanation key provider subject topic language
             level sent)
          (prompt_explanation subject topic language level)
    /\ sends (on_generate_resources key provider subject topic language
                level sent)
             (prompt_resources subject topic language level)
    /\ sends (on_generate_roadmap key provider subject topic language
                level sent)
             (prompt_roadmap subject topic language level)
    /\ snd (on_generate_quiz key provider subject topic language level
              sent)
       = sent ++ [completion_request
                    (prompt_quiz subject topic language level)].
Proof.
  intros RT key provider subject topic language level sent Hkey.
  destruct key as [|c key]; [congruence|]. cbv zeta.
  destruct (build_system_context_contains subject topic language level)
    as (Hs & Ht & Hl & Hv).
  assert (Hrun : forall prompt,
             snd (generate_with_groq (c :: key) provider prompt sent)
             = sent ++ [completion_request prompt]
             /\ forall content others,
                  provider (completion_request prompt)
                  = Response (content :: others) ->
                  fst (generate_with_groq (c :: key) provider prompt sent)
                  = Returned content).
  { intros prompt. unfold generate_with_groq, call_provider.
    destruct (provider (completion_request prompt)) as [[|x xs]|e];
      cbn [fst snd try_except]; split; try reflexivity;
      intros content others E; try discriminate.
    now injection E as -> _. }
  unfold on_generate_explanation, on_generate_resources,
    on_generate_roadmap, on_generate_quiz. cbv zeta. cbn [snd].
  repeat split; try apply Hrun;
    unfold prompt_explanation, prompt_resources, prompt_roadmap;
    auto with contains_db.
Qed.

Lemma generation_callbacks_send_prompt_witness :
  snd (on_generate_quiz (RT := example_runtime) (lit "gsk_1")
         (fun _ => Response [sure_text])
         (lit "Maths") (lit "Sums") (lit "English") (lit "Beginner") [])
  = [completion_request
       (prompt_quiz (lit "Maths") (lit "Sums") (lit "English")
          (lit "Beginner"))].
Proof.
  apply (@generation_callbacks_send_prompt example_runtime (lit "gsk_1")
           (fun _ => Response [sure_text])
           (lit "Maths") (lit "Sums") (lit "English") (lit "Beginner") []).
  discriminate.
Defined.
